(** * The ask-routing pipeline of the university-support backend

    A shallow embedding of the chat router: the store classifier
    [classifyStores], the session and provider-log helpers, and the
    [GET /ask] handler, followed by the properties the specification
    states about them.

    Conventions of the embedding.
    - JavaScript values that originate from [JSON.parse] (the classifier's
      result, stored session documents, response bodies) are terms of
      [json]; [undefined] is the [None] of an [option json].  Numbers are
      the integer-valued ones (fractional numbers need floating point).
    - Strings are sequences of code units below 256.
    - Everything the handler cannot decide by itself (the JSON reader, the
      generative model, the retrieval service, the clock, the random
      source, the process environment) is a field of [Runtime]; the two
      remote services see the history of earlier calls, so they may answer
      the same request differently each time.
    - A stored file is either a JSON document or text that does not parse;
      writing [JSON.stringify v] and reading it back yields [v].
    - The chat directory and the provider-log directory exist and hold
      plain files only; a file that exists can be read, rewritten and
      removed, and a new one can be created under any name the file
      system accepts (no NUL, at most [NAME_MAX] bytes).  A session id
      comes from the caller and may hold path separators: the path is
      normalised as [path.join] does, and what it then names outside the
      two directories is answered by the runtime.
    - A property is looked up among the own properties first; a name
      that is found on the built-in prototype instead is the runtime's
      to tell. *)

From Stdlib Require Import String Ascii List ZArith Bool Lia.
From stdpp Require Import base strings gmap list pretty.

Local Open Scope string_scope.
Local Open Scope list_scope.

(** ** Strings *)

Module Str.

(** White space as [String.prototype.trim] and the [\s] class see it,
    for code units below 256: TAB, LF, VT, FF, CR, SP and NBSP. *)
Definition is_ws (c : ascii) : bool :=
  match c with
  | "009" | "010" | "011" | "012" | "013" | " " | "160" => true
  | _ => false
  end%char.

Fixpoint trimStart (s : string) : string :=
  match s with
  | String c r => if is_ws c then trimStart r else s
  | EmptyString => EmptyString
  end.

Definition trimEnd (s : string) : string :=
  String.rev (trimStart (String.rev s)).

Definition trim (s : string) : string := trimEnd (trimStart s).

(** [s.indexOf(c)] for a one-character needle; [None] stands for [-1]. *)
Fixpoint indexOf (c : ascii) (s : string) : option nat :=
  match s with
  | EmptyString => None
  | String d r =>
      if Ascii.eqb c d then Some 0
      else match indexOf c r with Some i => Some (S i) | None => None end
  end.

(** [s.lastIndexOf(c)] for a one-character needle. *)
Fixpoint lastIndexOf (c : ascii) (s : string) : option nat :=
  match s with
  | EmptyString => None
  | String d r =>
      match lastIndexOf c r with
      | Some i => Some (S i)
      | None => if Ascii.eqb c d then Some 0 else None
      end
  end.

(** [s.slice(start, stop)] for non-negative indices. *)
Definition slice (s : string) (start stop : nat) : string :=
  String.substring start (stop - start) s.

(** [s.includes(sub)]. *)
Fixpoint includes (sub s : string) : bool :=
  String.prefix sub s ||
  match s with
  | EmptyString => false
  | String _ r => includes sub r
  end.

(** [parts.join(sep)]. *)
Fixpoint join (sep : string) (parts : list string) : string :=
  match parts with
  | [] => ""
  | [p] => p
  | p :: rest => p +:+ sep +:+ join sep rest
  end.

(** [s.split(/\s+/)] applied to a trimmed string: the maximal runs of
    non-blank characters; the empty string splits into [[""]]. *)
Fixpoint runs (cur : option string) (s : string) : list string :=
  match s with
  | EmptyString => option_list (String.rev <$> cur)
  | String c r =>
      if is_ws c then option_list (String.rev <$> cur) ++ runs None r
      else runs (Some (String c (default "" cur))) r
  end.

Definition splitWs (s : string) : list string :=
  match s with
  | EmptyString => [""]
  | _ => runs None s
  end.

(** [email.replace(/[^a-zA-Z0-9@._-]/g, "_")]. *)
Definition is_safe (c : ascii) : bool :=
  let n := nat_of_ascii c in
  (((97 <=? n) && (n <=? 122)) || ((65 <=? n) && (n <=? 90))
   || ((48 <=? n) && (n <=? 57))
   || (n =? 64) || (n =? 46) || (n =? 95) || (n =? 45))%nat.

Fixpoint sanitize (s : string) : string :=
  match s with
  | EmptyString => EmptyString
  | String c r => String (if is_safe c then c else "_"%char) (sanitize r)
  end.

End Str.

(** ** Paths

    [path.join(CHAT_DIR, name)] on a POSIX system, written relative to
    the chat directory: [CHAT_DIR] is [__dirname/database/chat_sessions]
    and the provider logs are in [__dirname/database/provider_questions]. *)

Module Path.

(** The longest file name the file system accepts, in bytes. *)
Definition NAME_MAX : nat := 255.

(** The bytes of a name in UTF-8: one for a code unit below 128, two for
    one from 128 to 255. *)
Fixpoint byteLength (s : string) : nat :=
  match s with
  | EmptyString => 0
  | String c r => (if (nat_of_ascii c <? 128)%nat then 1 else 2) + byteLength r
  end.

Definition fits (name : string) : bool := (byteLength name <=? NAME_MAX)%nat.

Fixpoint hasChar (c : ascii) (s : string) : bool :=
  match s with
  | EmptyString => false
  | String d r => Ascii.eqb c d || hasChar c r
  end.

(** [name.split("/")] *)
Fixpoint split (s : string) : list string :=
  match s with
  | EmptyString => [""]
  | String c r =>
      if Ascii.eqb "/" c then "" :: split r
      else match split r with
           | seg :: rest => String c seg :: rest
           | [] => [String c ""]
           end
  end.

(** A position relative to the chat directory: [up] levels above it,
    then down the segments of [down], innermost first. *)
Definition step (pos : nat * list string) (seg : string) : nat * list string :=
  let (up, down) := pos in
  if String.eqb seg "" || String.eqb seg "." then pos
  else if String.eqb seg ".."
       then match down with
            | _ :: outer => (up, outer)
            | [] => (S up, [])
            end
       else (up, seg :: down).

(** The same place reached without leaving and re-entering the chat
    directory or the database directory; [down] is outermost first. *)
Definition settle (pos : nat * list string) : nat * list string :=
  match pos with
  | (1, "chat_sessions" :: rest) => (0, rest)
  | (2, "database" :: "chat_sessions" :: rest) => (0, rest)
  | (2, "database" :: rest) => (1, rest)
  | _ => pos
  end%nat.

Definition normalize (name : string) : nat * list string :=
  let (up, down) := fold_left step (split name) (0, [])%nat in
  settle (up, rev down).

Definition join (name : string) : string :=
  let (up, down) := normalize name in
  Str.join "/" (repeat ".." up ++ down).

(** What a normalised path names. *)
Inductive Place :=
| ChatFile (name : string)
| LogFile (name : string)
| Elsewhere.

Definition place (file : string) : Place :=
  match normalize file with
  | (0, [name]) => ChatFile name
  | (1, ["provider_questions"; name]) => LogFile name
  | _ => Elsewhere
  end%nat.

(** A name that can be given to a new file of a directory. *)
Definition plainName (name : string) : bool :=
  negb (hasChar "/" name) && negb (hasChar "000" name)
  && negb (String.eqb name "") && negb (String.eqb name ".")
  && negb (String.eqb name "..") && fits name.

End Path.

(** ** JSON values and the JavaScript operations applied to them *)

#[local] Set Warnings "-register-all".

Inductive json : Type :=
| JNull
| JBool (b : bool)
| JNum (n : Z)
| JStr (s : string)
| JArr (items : list json)
| JObj (fields : list (string * json)).

Module Js.

(** ToBoolean. *)
Definition truthy (v : json) : bool :=
  match v with
  | JNull => false
  | JBool b => b
  | JNum n => negb (n =? 0)%Z
  | JStr s => negb (String.eqb s "")
  | JArr _ | JObj _ => true
  end.

(** [a || b], where [a] may be [undefined]. *)
Definition or (a : option json) (b : json) : json :=
  match a with
  | Some v => if truthy v then v else b
  | None => b
  end.

(** [a || null] as an option: the value when it is truthy. *)
Definition truthy_str (a : option string) : option string :=
  match a with
  | Some s => if String.eqb s "" then None else Some s
  | None => None
  end.

(** Own property of an object literal or parsed object. *)
Fixpoint assoc (k : string) (fs : list (string * json)) : option json :=
  match fs with
  | [] => None
  | (k', v) :: r => if String.eqb k k' then Some v else assoc k r
  end.

(** [o[k] = v]: overwrite in place, or add as the last property. *)
Fixpoint assoc_set (k : string) (v : json) (fs : list (string * json))
  : list (string * json) :=
  match fs with
  | [] => [(k, v)]
  | (k', v') :: r =>
      if String.eqb k k' then (k, v) :: r else (k', v') :: assoc_set k v r
  end.

(** ToString, also used for property keys and template literals. *)
Fixpoint to_string (v : json) : string :=
  match v with
  | JNull => "null"
  | JBool true => "true"
  | JBool false => "false"
  | JNum n => pretty n
  | JStr s => s
  | JArr l =>
      Str.join ","
        (List.map (fun x => match x with JNull => "" | _ => to_string x end) l)
  | JObj _ => "[object Object]"
  end.

Definition chars (s : string) : list json :=
  List.map (fun c => JStr (String c "")) (list_ascii_of_string s).

(** The element of [l] whose canonical index prints as [k]. *)
Fixpoint at_index (k : string) (i : nat) (l : list json) : option json :=
  match l with
  | [] => None
  | x :: r => if String.eqb k (pretty i) then Some x else at_index k (S i) r
  end.

(** [v[k]] on a value that is neither [null] nor [undefined]. *)
Definition prop (v : json) (k : string) : option json :=
  match v with
  | JObj fs => assoc k fs
  | JArr l =>
      if String.eqb k "length" then Some (JNum (Z.of_nat (List.length l)))
      else at_index k 0 l
  | JStr s =>
      if String.eqb k "length" then Some (JNum (Z.of_nat (String.length s)))
      else at_index k 0 (chars s)
  | _ => None
  end.

(** [Object.keys(v)] of a parsed value. *)
Definition keys (v : json) : list string :=
  match v with
  | JObj fs => List.map fst fs
  | JArr l => List.map pretty (seq 0 (List.length l))
  | JStr s => List.map pretty (seq 0 (String.length s))
  | _ => []
  end.

(** [x === y] against a string. *)
Definition is_str (s : string) (v : json) : bool :=
  match v with
  | JStr t => String.eqb s t
  | _ => false
  end.

End Js.

(** ** A reader for JSON text

    [JsonText.parse] follows the JSON grammar for the fragment of the
    embedding (integer numbers, the two-character escapes).  The
    development is parametric in the reader; this one instantiates it on
    concrete model outputs. *)

Module JsonText.

Definition is_ws (c : ascii) : bool :=
  match c with
  | " " | "009" | "010" | "013" => true
  | _ => false
  end%char.

Fixpoint skip_ws (s : list ascii) : list ascii :=
  match s with
  | c :: r => if is_ws c then skip_ws r else s
  | [] => []
  end.

Definition unescape (c : ascii) : option ascii :=
  match c with
  | "034" => Some "034"
  | "\" => Some "\"
  | "/" => Some "/"
  | "n" => Some "010"
  | "t" => Some "009"
  | "r" => Some "013"
  | "b" => Some "008"
  | "f" => Some "012"
  | _ => None
  end%char.

(** The characters after an opening quote, up to the closing one. *)
Fixpoint string_body (s : list ascii) : option (string * list ascii) :=
  match s with
  | [] => None
  | c :: r =>
      if Ascii.eqb c "034"%char then Some ("", r)
      else if Ascii.eqb c "\"%char then
        match r with
        | e :: r' =>
            match unescape e, string_body r' with
            | Some d, Some (t, rest) => Some (String d t, rest)
            | _, _ => None
            end
        | [] => None
        end
      else if (nat_of_ascii c <? 32)%nat then None
      else match string_body r with
           | Some (t, rest) => Some (String c t, rest)
           | None => None
           end
  end.

Fixpoint digits (acc : Z) (s : list ascii) : Z * list ascii :=
  match s with
  | c :: r =>
      match Ascii.is_nat c with
      | Some d => digits (10 * acc + Z.of_nat d) r
      | None => (acc, s)
      end
  | [] => (acc, [])
  end.

Definition natural (s : list ascii) : option (Z * list ascii) :=
  match s with
  | c :: r =>
      match Ascii.is_nat c with
      | Some 0%nat => Some (0%Z, r)
      | Some d => Some (digits (Z.of_nat d) r)
      | None => None
      end
  | [] => None
  end.

Definition number (s : list ascii) : option (Z * list ascii) :=
  match s with
  | "-"%char :: r =>
      match natural r with
      | Some (n, rest) => Some ((- n)%Z, rest)
      | None => None
      end
  | _ => natural s
  end.

Section Containers.
Variable value : list ascii -> option (json * list ascii).

(** Elements after ["["], the first one already known to be there. *)
Fixpoint elements (n : nat) (acc : list json) (s : list ascii)
  : option (list json * list ascii) :=
  match n with
  | 0 => None
  | S n' =>
      match value s with
      | Some (v, r) =>
          match skip_ws r with
          | ","%char :: r' => elements n' (acc ++ [v]) r'
          | "]"%char :: r' => Some (acc ++ [v], r')
          | _ => None
          end
      | None => None
      end
  end.

(** Members after ["{"]; a repeated key keeps its place and takes the
    later value. *)
Fixpoint members (n : nat) (acc : list (string * json)) (s : list ascii)
  : option (list (string * json) * list ascii) :=
  match n with
  | 0 => None
  | S n' =>
      match skip_ws s with
      | "034"%char :: r =>
          match string_body r with
          | Some (k, r1) =>
              match skip_ws r1 with
              | ":"%char :: r2 =>
                  match value r2 with
                  | Some (v, r3) =>
                      match skip_ws r3 with
                      | ","%char :: r4 => members n' (Js.assoc_set k v acc) r4
                      | "}"%char :: r4 => Some (Js.assoc_set k v acc, r4)
                      | _ => None
                      end
                  | None => None
                  end
              | _ => None
              end
          | None => None
          end
      | _ => None
      end
  end.
End Containers.

Fixpoint value (fuel : nat) (s : list ascii) : option (json * list ascii) :=
  match fuel with
  | 0 => None
  | S fuel' =>
      match skip_ws s with
      | "n" :: "u" :: "l" :: "l" :: r => Some (JNull, r)
      | "t" :: "r" :: "u" :: "e" :: r => Some (JBool true, r)
      | "f" :: "a" :: "l" :: "s" :: "e" :: r => Some (JBool false, r)
      | "034" :: r =>
          match string_body r with
          | Some (t, rest) => Some (JStr t, rest)
          | None => None
          end
      | "[" :: r =>
          match skip_ws r with
          | "]" :: r' => Some (JArr [], r')
          | _ =>
              match elements (value fuel') (List.length r) [] r with
              | Some (l, rest) => Some (JArr l, rest)
              | None => None
              end
          end
      | "{" :: r =>
          match skip_ws r with
          | "}" :: r' => Some (JObj [], r')
          | _ =>
              match members (value fuel') (List.length r) [] r with
              | Some (fs, rest) => Some (JObj fs, rest)
              | None => None
              end
          end
      | rest =>
          match number rest with
          | Some (n, rest') => Some (JNum n, rest')
          | None => None
          end
      end%char
  end.

Definition parse (text : string) : option json :=
  let s := list_ascii_of_string text in
  match value (S (List.length s)) s with
  | Some (v, rest) =>
      match skip_ws rest with
      | [] => Some v
      | _ => None
      end
  | None => None
  end.

End JsonText.


(** ** The runtime and the world the router acts on *)

(** A thrown [Error]; only its [message] is ever inspected. *)
Record JsError := { message : string }.

(** What [generateContent] is asked: the classification request, which is
    determined by the store list and the question, or the bare question
    of the direct path. *)
Inductive GenArgs :=
| GenClassify (stores : list string) (question : string)
| GenDirect (question : string).

(** [result.response?.text?.()] and [result.candidates[0].text]. *)
Record GenResult := {
  response_text_of : option string;
  candidate_text : option string
}.

Inductive GenOutcome :=
| GenThrows (e : JsError)
| GenReturns (r : GenResult).

(** The shape the retrieval service answers with.  The service itself
    ([./rag]) and the generative-model client are not part of the router;
    their answers are described by the fields the router reads. *)
Record RetrievedContext := { text : option string }.
Record Chunk := { retrievedContext : option RetrievedContext }.
Record GroundingMetadata := { groundingChunks : option (list Chunk) }.
Record RagData := {
  response_text : option string;
  grounding_metadata : option GroundingMetadata
}.
Record RagResponse := { success : bool; data : option RagData }.

Inductive RagOutcome :=
| RagThrows (e : JsError)
| RagReturns (r : option RagResponse).

(** What one store is asked: a JSON value, or a member that
    [splitQuestions] inherits from its built-in prototype, with what
    [JSON.stringify] prints for it as the value of a property ([None]
    for a function, which is left out). *)
Inductive Asked :=
| AskedJson (v : json)
| AskedMember (name : string) (printed : option json).

(** Calls that left the process, oldest first. *)
Inductive Event :=
| EvGenerate (key model : string) (args : GenArgs)
| EvRag (key : option string) (stores : list json) (question : Asked).

Record StoreRef := { storeName : string; accountEmail : option string }.
Record Student := {
  universityEmail : option string;
  accessibleStores : list StoreRef
}.
Record University := { apiKeyInfo_key : option string }.

Inductive FileData :=
| Unparsable
| Doc (v : json).

(** [outside] lists what was written ([Some]) or removed ([None]) beyond
    the chat and provider-log directories, oldest first. *)
Record World := mkWorld {
  studentsDir : gmap string Student;
  universitiesDir : gmap string University;
  chatDir : gmap string FileData;
  providerLogsDir : gmap string FileData;
  outside : list (string * option json);
  trace : list Event;
  ticks : nat
}.

Definition with_chat (f : gmap string FileData -> gmap string FileData)
  (w : World) : World :=
  mkWorld (studentsDir w) (universitiesDir w) (f (chatDir w))
          (providerLogsDir w) (outside w) (trace w) (ticks w).

Definition with_providerLogs (f : gmap string FileData -> gmap string FileData)
  (w : World) : World :=
  mkWorld (studentsDir w) (universitiesDir w) (chatDir w)
          (f (providerLogsDir w)) (outside w) (trace w) (ticks w).

Definition with_event (e : Event) (w : World) : World :=
  mkWorld (studentsDir w) (universitiesDir w) (chatDir w)
          (providerLogsDir w) (outside w) (trace w ++ [e]) (ticks w).


Definition tick (w : World) : World :=
  mkWorld (studentsDir w) (universitiesDir w) (chatDir w)
          (providerLogsDir w) (outside w) (trace w) (S (ticks w)).

(** The directories as [stray] leaves them, after the change [op] made
    beyond the two directories. *)
Definition with_outside (op : string * option json) (stray w : World) : World :=
  mkWorld (studentsDir stray) (universitiesDir stray) (chatDir stray)
          (providerLogsDir stray) (outside w ++ [op]) (trace w) (ticks w).

(** How the file system rejects a call, as far as the router tells the
    rejections apart: the file is not there, or anything else (a name
    that is too long or holds a NUL, a directory in the way, ...). *)
Inductive FsError :=
| ENOENT
| EOTHER.

Record Runtime := {
  JSON_parse : string -> option json;
  env_GEMINI_API_KEY : option string;
  (** [genAI.getGenerativeModel({ model })] throws for this name *)
  modelInitError : string -> option JsError;
  generateContent : list Event -> string -> string -> GenArgs -> GenOutcome;
  askQuestion : list Event -> option string -> list json -> Asked -> RagOutcome;
  (** [new Date().toISOString()], [Date.now()] and
      [Math.random().toString(36).slice(2, 8)] at the n-th reading *)
  clock : nat -> string;
  dateNow : nat -> string;
  randomSuffix : nat -> string;
  (** [base[name]] for a [name] that is no own property of [base]: the
      member of that name on the built-in prototype of [base], if there
      is one, as [JSON.stringify] prints it.  Such a member is a function
      or, under [__proto__], the prototype itself, so it is truthy. *)
  inheritedMember : json -> string -> option (option json);
  (** [fs.readFile], [fs.writeFile], [fs.access] and [fs.unlink] on a
      path that leads out of the chat directory to anything but a file of
      the provider-log directory (a subdirectory, the records of the
      students and the universities, the rest of the disc); a write and
      a removal answer with the directories as they leave them *)
  strayRead : World -> string -> FsError + FileData;
  strayWrite : World -> string -> json -> FsError + World;
  strayAccess : World -> string -> option FsError;
  strayUnlink : World -> string -> FsError + World
}.

(** ** Computations: state passing with exceptions *)

Inductive Outcome (A : Type) :=
| Ok (a : A)
| Thrown (e : JsError).
Arguments Ok {A} a.
Arguments Thrown {A} e.

Definition M (A : Type) : Type := World -> Outcome A * World.

Definition ret {A} (a : A) : M A := fun w => (Ok a, w).
Definition throw {A} (msg : string) : M A :=
  fun w => (Thrown {| message := msg |}, w).
Definition bind {A B} (m : M A) (k : A -> M B) : M B :=
  fun w =>
    match m w with
    | (Ok a, w') => k a w'
    | (Thrown e, w') => (Thrown e, w')
    end.

(** [try { m } catch (e) { h e }] *)
Definition try_catch {A} (m : M A) (h : JsError -> M A) : M A :=
  fun w =>
    match m w with
    | (Ok a, w') => (Ok a, w')
    | (Thrown e, w') => h e w'
    end.

Notation "x <- m ;; k" := (bind m (fun x => k))
  (at level 100, m at next level, right associativity).
Notation "m ;;; k" := (bind m (fun _ => k))
  (at level 100, right associativity).

Definition newline : string := String "010"%char "".

(** [try { m } catch (err) { console.error(...) }] around a detached task. *)
Definition background (m : M unit) : M unit := try_catch m (fun _ => ret tt).

(** ** Requests and responses *)

(** The query parameters of [GET /ask]. *)
Record Request := {
  q_email : option string;
  q_question : option string;
  q_sessionId : option string;
  q_isCampusSearch : option string
}.

Record Response := { status : nat; body : json }.

(** [res.json(fields)] and [res.status(code).json(fields)] *)
Definition json_res (fields : list (string * json)) : Response :=
  {| status := 200; body := JObj fields |}.
Definition status_json (code : nat) (fields : list (string * json)) : Response :=
  {| status := code; body := JObj fields |}.

(** A string, or [null] when there is none. *)
Definition orNull (o : option string) : json :=
  match o with
  | Some s => JStr s
  | None => JNull
  end.

(** One entry of [ragResults]. *)
Record RagResult := {
  store : json;
  answerText : string;
  resultChunks : list Chunk
}.

(** How one turn of the store loop ends: the loop goes on with the two
    accumulators, or the handler returns at a store that gave a failure
    signal. *)
Inductive Step :=
| Continue (ragResults : list RagResult) (allGrounding : list string)
| Return (failedStore : json) (qForStore : Asked).

(** ** The file system

    The file a path names.  The chat map holds the files of the chat
    directory under their names, so a name it holds is that file; any
    other path is followed to where [path.join] leaves it. *)

Inductive Target :=
| InChat (name : string)
| InLogs (name : string)
| Stray
| Refused.

Definition target (file : string) (w : World) : Target :=
  match chatDir w !! file with
  | Some _ => InChat file
  | None =>
      if Path.hasChar "000" file then Refused
      else match Path.place file with
           | Path.ChatFile name => InChat name
           | Path.LogFile name => InLogs name
           | Path.Elsewhere => Stray
           end
  end.

(** How a call fails on a name that names nothing: the file is absent,
    unless the name is longer than the file system takes. *)
Definition absent (name : string) : FsError :=
  if Path.fits name then ENOENT else EOTHER.

Definition lookupFile (dir : gmap string FileData) (name : string)
  : FsError + FileData :=
  match dir !! name with
  | Some d => inr d
  | None => inl (absent name)
  end.

(** A file can be written when it exists or its name can be given to a
    new one. *)
Definition canWrite (dir : gmap string FileData) (name : string) : bool :=
  bool_decide (is_Some (dir !! name)) || Path.fits name.

Definition fsMessage (e : FsError) : JsError :=
  {| message := match e with
                | ENOENT => "ENOENT: no such file or directory"
                | EOTHER => "the file system rejected the call"
                end |}.

Section Router.
Context (rt : Runtime).

(** *** The calls on files *)

Definition fsRead (file : string) (w : World) : FsError + FileData :=
  match target file w with
  | InChat name => lookupFile (chatDir w) name
  | InLogs name => lookupFile (providerLogsDir w) name
  | Stray => strayRead rt w file
  | Refused => inl EOTHER
  end.

Definition fsWrite (file : string) (v : json) (w : World) : FsError + World :=
  match target file w with
  | InChat name =>
      if canWrite (chatDir w) name
      then inr (with_chat (insert name (Doc v)) w)
      else inl EOTHER
  | InLogs name =>
      if canWrite (providerLogsDir w) name
      then inr (with_providerLogs (insert name (Doc v)) w)
      else inl EOTHER
  | Stray =>
      match strayWrite rt w file v with
      | inr stray => inr (with_outside (file, Some v) stray w)
      | inl e => inl e
      end
  | Refused => inl EOTHER
  end.

Definition fsAccess (file : string) (w : World) : option FsError :=
  match target file w with
  | InChat name =>
      match lookupFile (chatDir w) name with inr _ => None | inl e => Some e end
  | InLogs name =>
      match lookupFile (providerLogsDir w) name with inr _ => None | inl e => Some e end
  | Stray => strayAccess rt w file
  | Refused => Some EOTHER
  end.

Definition fsUnlink (file : string) (w : World) : FsError + World :=
  match target file w with
  | InChat name =>
      match lookupFile (chatDir w) name with
      | inr _ => inr (with_chat (delete name) w)
      | inl e => inl e
      end
  | InLogs name =>
      match lookupFile (providerLogsDir w) name with
      | inr _ => inr (with_providerLogs (delete name) w)
      | inl e => inl e
      end
  | Stray =>
      match strayUnlink rt w file with
      | inr stray => inr (with_outside (file, None) stray w)
      | inl e => inl e
      end
  | Refused => inl EOTHER
  end.

(** *** Primitive effects *)

(** [new Date().toISOString()] *)
Definition now : M string := fun w => (Ok (clock rt (ticks w)), tick w).

(** ["session_" + Date.now() + "_" + Math.random().toString(36).slice(2, 8)] *)
Definition mintSessionId : M string :=
  fun w =>
    (Ok ("session_" +:+ dateNow rt (ticks w) +:+ "_" +:+ randomSuffix rt (ticks w)),
     tick w).

(** [JSON.parse(await fs.readFile(file, "utf8"))] on a session path *)
Definition readChat (file : string) : M json :=
  fun w =>
    match fsRead file w with
    | inr (Doc v) => (Ok v, w)
    | inr Unparsable => (Thrown {| message := "Unexpected token in JSON" |}, w)
    | inl e => (Thrown (fsMessage e), w)
    end.

(** [await fs.writeFile(file, JSON.stringify(v, null, 2))] *)
Definition writeChat (file : string) (v : json) : M unit :=
  fun w =>
    match fsWrite file v w with
    | inr w' => (Ok tt, w')
    | inl e => (Thrown (fsMessage e), w)
    end.

(** The same in the provider-log directory, where the name is built from
    a sanitised address and so is one segment. *)
Definition writeProviderLog (file : string) (v : json) : M unit :=
  fun w =>
    if canWrite (providerLogsDir w) file
    then (Ok tt, with_providerLogs (insert file (Doc v)) w)
    else (Thrown (fsMessage EOTHER), w).

(** [model.generateContent(...)], a throwing [text()] included *)
Definition callModel (key model : string) (args : GenArgs) : M GenResult :=
  fun w =>
    let w' := with_event (EvGenerate key model args) w in
    match generateContent rt (trace w) key model args with
    | GenReturns r => (Ok r, w')
    | GenThrows e => (Thrown e, w')
    end.

(** [RAGService.askQuestion(geminiKey, stores, question)] *)
Definition callRag (key : option string) (stores : list json) (question : Asked)
  : M (option RagResponse) :=
  fun w =>
    let w' := with_event (EvRag key stores question) w in
    match askQuestion rt (trace w) key stores question with
    | RagReturns r => (Ok r, w')
    | RagThrows e => (Thrown e, w')
    end.

(** [v.k] where [v] may be [null] *)
Definition getProp (v : json) (k : string) : M (option json) :=
  match v with
  | JNull =>
      throw ("Cannot read properties of null (reading '" +:+ k +:+ "')")
  | _ => ret (Js.prop v k)
  end.

(** *** Helpers of the router *)

Definition readStudent (email : string) : M (option Student) :=
  fun w => (Ok (studentsDir w !! (Str.sanitize email +:+ ".json")), w).

Definition readUniversity (email : option string) : M (option University) :=
  fun w => (Ok (email ≫= fun e => universitiesDir w !! (Str.sanitize e +:+ ".json")), w).

(** [path.join(CHAT_DIR, `${safeEmail}__${sessionId}.json`)]; only the
    address is sanitised. *)
Definition getSessionFile (email sessionId : string) : string :=
  Path.join (Str.sanitize email +:+ "__" +:+ sessionId +:+ ".json").

Definition generateSessionName (question : json) : string :=
  match question with
  | JStr q =>
      if String.eqb q "" then "New Session"
      else
        let words := Str.splitWs (Str.trim q) in
        if (List.length words <=? 10)%nat then Str.trim q
        else Str.join " " (take 10 words) +:+ "..."
  | _ => "New Session"
  end.

(** The object literal of a session document; [sessionName] is dropped
    by [JSON.stringify] when it is [undefined]. *)
Definition sessionData (sessionId : string) (sessionName : option string)
  (email createdAt updatedAt : string) (messages : list json) : json :=
  JObj ([("sessionId", JStr sessionId)]
        ++ match sessionName with
           | Some n => [("sessionName", JStr n)]
           | None => []
           end
        ++ [("email", JStr email);
            ("createdAt", JStr createdAt);
            ("updatedAt", JStr updatedAt);
            ("messages", JArr messages)]).

(** The body of the [try] block, up to the write: what is serialised
    after [session.messages.push(messageObj)] and the refresh of
    [updatedAt].  A primitive cannot hold [messages], so [push] is called
    on [undefined]; an array holds it as a property that
    [JSON.stringify] does not print. *)
Definition pushMessage (session : json) (messageObj : json) : M (string -> json) :=
  match session with
  | JNull => throw "Cannot read properties of null (reading 'messages')"
  | JObj fs =>
      match Js.or (Js.assoc "messages" fs) (JArr []) with
      | JArr l =>
          ret (fun updatedAt =>
                 JObj (Js.assoc_set "updatedAt" (JStr updatedAt)
                         (Js.assoc_set "messages" (JArr (l ++ [messageObj])) fs)))
      | _ => throw "session.messages.push is not a function"
      end
  | JArr l => ret (fun _ => JArr l)
  | _ => throw "Cannot read properties of undefined (reading 'push')"
  end.

Definition appendMessageToSessionFile (email sessionId : string)
  (messageObj : list (string * json)) : M unit :=
  let file := getSessionFile email sessionId in
  try_catch
    (session <- readChat file ;;
     updated <- pushMessage session (JObj messageObj) ;;
     updatedAt <- now ;;
     writeChat file (updated updatedAt))
    (fun _ =>
       let sessionName :=
         generateSessionName (Js.or (Js.assoc "question" messageObj) (JStr "")) in
       createdAt <- now ;;
       updatedAt <- now ;;
       writeChat file
         (sessionData sessionId (Some sessionName) email createdAt updatedAt
            [JObj messageObj])).

Definition createSessionFile (email sessionId : string)
  (sessionName : option string) : M unit :=
  let file := getSessionFile email sessionId in
  createdAt <- now ;;
  updatedAt <- now ;;
  writeChat file (sessionData sessionId sessionName email createdAt updatedAt []).

(** A failed write is caught and logged to the console. *)
Definition appendProviderLog (providerEmail : string) (logDoc : json) : M unit :=
  try_catch
    (fun w =>
       let file := Str.sanitize providerEmail +:+ ".json" in
       let arr :=
         match providerLogsDir w !! file with
         | Some (Doc (JArr l)) => l
         | _ => []
         end in
       writeProviderLog file (JArr (arr ++ [logDoc])) w)
    (fun _ => ret tt).

(** *** The classifier *)

(** [{ stores: stores, split_questions: {}, unanswered: [] }] *)
Definition selection (stores : list string) : json :=
  JObj [("stores", JArr (List.map JStr stores));
        ("split_questions", JObj []);
        ("unanswered", JArr [])].

(** [result.response?.text?.() || (result.candidates && ...) || ""] *)
Definition modelText (result : GenResult) : string :=
  default ""
    (match Js.truthy_str (response_text_of result) with
     | Some t => Some t
     | None => Js.truthy_str (candidate_text result)
     end).

Definition classifyStores (geminiKey : option string) (stores : list string)
  (question : string) : M json :=
  try_catch
    (match Js.truthy_str geminiKey with
     | None => ret (selection stores)
     | Some key =>
         match modelInitError rt "gemini-1.5-flash" with
         | Some e => fun w => (Thrown e, w)
         | None =>
             result <- callModel key "gemini-1.5-flash" (GenClassify stores question) ;;
             let txt := modelText result in
             if String.eqb txt "" then ret (selection [])
             else
               let raw := Str.trim txt in
               match JSON_parse rt raw with
               | Some parsed => ret parsed
               | None =>
                   match Str.indexOf "{" raw, Str.lastIndexOf "}" raw with
                   | Some start, Some stop =>
                       match JSON_parse rt (Str.slice raw start (stop + 1)) with
                       | Some parsed => ret parsed
                       | None => ret (selection stores)
                       end
                   | _, _ => ret (selection stores)
                   end
               end
         end
     end)
    (fun _ => ret (selection stores)).


(** *** The direct path *)

Definition resolveKey (university : option University) : option string :=
  match Js.truthy_str (university ≫= apiKeyInfo_key) with
  | Some k => Some k
  | None => Js.truthy_str (env_GEMINI_API_KEY rt)
  end.

(** The session of the turn: the caller's, or a new one. *)
Definition resolveSession (sessionId : option string) : M (bool * string) :=
  match Js.truthy_str sessionId with
  | Some sid => ret (false, sid)
  | None => sid <- mintSessionId ;; ret (true, sid)
  end.

(** [isNewSession ? generateSessionName(question) : undefined] *)
Definition sessionNameFor (isNewSession : bool) (question : string) : option string :=
  if isNewSession then Some (generateSessionName (JStr question)) else None.

Definition modelsToTry : list string :=
  ["gemini-1.5-flash"; "gemini-pro"; "models/gemini-1.5-flash"].

Definition pickModel : option string :=
  List.find (fun m => match modelInitError rt m with None => true | Some _ => false end)
    modelsToTry.

Definition classifyError (m : string) : string * nat :=
  if Str.includes "API key" m || Str.includes "auth" m
  then ("Invalid or unauthorized API key", 401)
  else if Str.includes "quota" m || Str.includes "exceeded" m
  then ("API quota exceeded or rate limited", 429)
  else if Str.includes "network" m || Str.includes "connect" m
  then ("Network error connecting to Gemini API", 503)
  else if Str.includes "model" m
  then ("Gemini model not available", 400)
  else ("Failed to call Gemini API", 500).

Definition geminiErrorResponse (geminiErr : JsError) : Response :=
  let (errorMessage, statusCode) := classifyError (message geminiErr) in
  status_json statusCode
    [("error", JStr errorMessage);
     ("details", JStr (message geminiErr));
     ("suggestion",
      JStr "Check your API key, internet connection, and try a different model if available")].

Definition directGemini (email question : string) (sessionId : option string)
  (student : Student) : M Response :=
  university <- readUniversity (universityEmail student) ;;
  match resolveKey university with
  | None =>
      ret (status_json 400
             [("error", JStr "No API key available for Gemini call");
              ("details",
               JStr "Check university API key or set GEMINI_API_KEY environment variable")])
  | Some geminiKey =>
      match pickModel with
      | None =>
          ret (status_json 400
                 [("error", JStr "No compatible Gemini model found");
                  ("availableModels", JArr (List.map JStr modelsToTry))])
      | Some modelName =>
          try_catch
            (result <- callModel geminiKey modelName (GenDirect question) ;;
             let answerText :=
               default "No response from Gemini"
                 (Js.truthy_str (response_text_of result)) in
             session <- resolveSession sessionId ;;
             let (isNewSession, currentSessionId) := session : bool * string in
             let sessionName := sessionNameFor isNewSession question in
             timestamp <- now ;;
             let response :=
               json_res
                 [("sessionId", JStr currentSessionId);
                  ("answer", JStr answerText);
                  ("storesUsed", JArr []);
                  ("grounding", JArr []);
                  ("isCampusSearch", JBool false);
                  ("modelUsed", JStr modelName);
                  ("timestamp", JStr timestamp)] in
             background
               ((if isNewSession
                 then createSessionFile email currentSessionId sessionName
                 else ret tt) ;;;
                stamp <- now ;;
                appendMessageToSessionFile email currentSessionId
                  [("role", JStr "assistant");
                   ("question", JStr question);
                   ("answer", JStr answerText);
                   ("storesUsed", JArr []);
                   ("grounding", JArr []);
                   ("timestamp", JStr stamp);
                   ("isCampusSearch", JBool false);
                   ("method", JStr "direct_gemini");
                   ("model", JStr modelName)]) ;;;
             ret response)
            (fun geminiErr => ret (geminiErrorResponse geminiErr))
      end
  end.

(** *** Campus search: the store loop *)

(** [for (const chunk of groundingChunks) { ... if (ctx.text) push }] *)
Definition groundingTexts (chunks : list Chunk) : list string :=
  omap (fun chunk => Js.truthy_str (retrievedContext chunk ≫= text)) chunks.

Definition errorText (store : json) (ragErr : JsError) : string :=
  "Error processing " +:+ Js.to_string store +:+ ": " +:+ message ragErr.

(** [splitQuestions[store] || question]: an own property when there is
    one, and then the question when it is falsy; failing that a member
    of the built-in prototype, which is truthy; failing that the
    question. *)
Definition questionFor (splitQuestions : json) (question : string) (store : json)
  : Asked :=
  let name := Js.to_string store in
  match Js.prop splitQuestions name with
  | Some v => AskedJson (if Js.truthy v then v else JStr question)
  | None =>
      match inheritedMember rt splitQuestions name with
      | Some printed => AskedMember name printed
      | None => AskedJson (JStr question)
      end
  end.

(** [question: qForStore] in an object literal that is serialised. *)
Definition askedField (qForStore : Asked) : list (string * json) :=
  match qForStore with
  | AskedJson v => [("question", v)]
  | AskedMember _ (Some v) => [("question", v)]
  | AskedMember _ None => []
  end.

(** One turn of [for (const store of predictedStores)]. *)
Definition ragStep (geminiKey : option string) (splitQuestions : json)
  (question : string) (store : json)
  (ragResults : list RagResult) (allGrounding : list string) : M Step :=
  let qForStore := questionFor splitQuestions question store in
  try_catch
    (ragResp <- callRag geminiKey [store] qForStore ;;
     match ragResp with
     | Some {| success := true; data := Some d |} =>
         let answerText := default "" (Js.truthy_str (response_text d)) in
         let groundingChunks :=
           default [] (grounding_metadata d ≫= groundingChunks) in
         ret (Continue
                (ragResults ++
                   [{| store := store; answerText := answerText;
                       resultChunks := groundingChunks |}])
                (allGrounding ++ groundingTexts groundingChunks))
     | _ => ret (Return store qForStore)
     end)
    (fun ragErr =>
       ret (Continue
              (ragResults ++
                 [{| store := store; answerText := errorText store ragErr;
                     resultChunks := [] |}])
              allGrounding)).

Fixpoint ragLoop (geminiKey : option string) (splitQuestions : json)
  (question : string) (stores : list json)
  (ragResults : list RagResult) (allGrounding : list string) : M Step :=
  match stores with
  | [] => ret (Continue ragResults allGrounding)
  | store :: rest =>
      step <- ragStep geminiKey splitQuestions question store ragResults allGrounding ;;
      match step with
      | Continue ragResults' allGrounding' =>
          ragLoop geminiKey splitQuestions question rest ragResults' allGrounding'
      | Return failed q => ret (Return failed q)
      end
  end.

(** [for (const store of predictedStores)]: the values it visits. *)
Definition iterate (predictedStores : json) : M (list json) :=
  match predictedStores with
  | JArr l => ret l
  | JStr s => ret (Js.chars s)
  | _ => throw "predictedStores is not iterable"
  end.

(** [accessible.find(x => x.storeName === store)] *)
Definition findDept (accessible : list StoreRef) (store : json) : option StoreRef :=
  List.find (fun x => Js.is_str (storeName x) store) accessible.

(** [ragResults.map(r => `**${r.store}**:\n${r.answerText}`).join("\n\n")],
    or the single answer as it is *)
Definition section_of (r : RagResult) : string :=
  "**" +:+ Js.to_string (store r) +:+ "**:" +:+ newline +:+ answerText r.

Definition mergeResults (ragResults : list RagResult) : json :=
  match ragResults with
  | [r] => JStr (answerText r)
  | _ => JStr (Str.join (newline +:+ newline) (List.map section_of ragResults))
  end.


(** *** Campus search: the three ways a turn ends *)

Definition createIfNew (isNewSession : bool) (email currentSessionId : string)
  (sessionName : option string) : M unit :=
  if isNewSession then createSessionFile email currentSessionId sessionName
  else ret tt.

(** No store predicted (source lines 445-484). *)
Definition noStoresPredicted (email question currentSessionId : string)
  (isNewSession : bool) (sessionName : option string) (unanswered : json)
  : M Response :=
  let answerText := "Sorry, none of the departments can answer this." in
  let response :=
    json_res
      [("sessionId", JStr currentSessionId);
       ("answer", JStr answerText);
       ("storesUsed", JArr []);
       ("unanswered", unanswered);
       ("isCampusSearch", JBool true)] in
  background
    (createIfNew isNewSession email currentSessionId sessionName ;;;
     stamp <- now ;;
     appendMessageToSessionFile email currentSessionId
       [("role", JStr "assistant");
        ("question", JStr question);
        ("answer", JStr answerText);
        ("storesUsed", JArr []);
        ("grounding", JArr []);
        ("timestamp", JStr stamp);
        ("unresolvedParts", unanswered);
        ("isCampusSearch", JBool true);
        ("method", JStr "campus_search")]) ;;;
  ret response.

(** A store gave a failure signal (source lines 499-553). *)
Definition ragFailed (email question currentSessionId : string)
  (isNewSession : bool) (sessionName : option string)
  (accessible : list StoreRef) (store : json) (qForStore : Asked) : M Response :=
  let dept := findDept accessible store in
  let searchedIn := Js.truthy_str (dept ≫= accountEmail) in
  let answerText := "Sorry we didn't find any information related to this." in
  let response :=
    json_res
      [("sessionId", JStr currentSessionId);
       ("answer", JStr answerText);
       ("searchedIn", orNull searchedIn);
       ("isCampusSearch", JBool true);
       ("failedStore", store)] in
  background
    (createIfNew isNewSession email currentSessionId sessionName ;;;
     stamp <- now ;;
     appendMessageToSessionFile email currentSessionId
       [("role", JStr "assistant");
        ("question", JStr question);
        ("answer", JStr answerText);
        ("storesUsed", JArr [store]);
        ("grounding", JArr []);
        ("timestamp", JStr stamp);
        ("searchedIn", orNull searchedIn);
        ("isCampusSearch", JBool true);
        ("method", JStr "campus_search");
        ("ragError", JBool true)] ;;;
     match searchedIn with
     | Some providerEmail =>
         asked_at <- now ;;
         appendProviderLog providerEmail
           (JObj ([("provider_email", JStr providerEmail);
                   ("user_email", JStr email);
                   ("store_name", store)]
                  ++ askedField qForStore
                  ++ [("response", JNull);
                      ("asked_at", JStr asked_at);
                      ("isCampusSearch", JBool true);
                      ("error", JStr "RAG call failed")]))
     | None => ret tt
     end) ;;;
  ret response.

(** [for (const r of ragResults) await appendProviderLog(...)] *)
Fixpoint logProviders (email question : string) (accessible : list StoreRef)
  (splitQuestions : json) (ragResults : list RagResult) : M unit :=
  match ragResults with
  | [] => ret tt
  | r :: rest =>
      let providerEmail := Js.truthy_str (findDept accessible (store r) ≫= accountEmail) in
      let qForStore := questionFor splitQuestions question (store r) in
      asked_at <- now ;;
      appendProviderLog (default "unknown" providerEmail)
        (JObj ([("provider_email", orNull providerEmail);
                ("user_email", JStr email);
                ("store_name", store r)]
               ++ askedField qForStore
               ++ [("response", JStr (String.substring 0 500 (answerText r) +:+ "..."));
                   ("grounding_count", JNum (Z.of_nat (List.length (resultChunks r))));
                   ("asked_at", JStr asked_at);
                   ("isCampusSearch", JBool true)])) ;;;
      logProviders email question accessible splitQuestions rest
  end.

(** Every store was processed (source lines 580-650). *)
Definition mergeAndRespond (email question currentSessionId : string)
  (isNewSession : bool) (sessionName : option string)
  (accessible : list StoreRef) (predictedStores splitQuestions : json)
  (ragResults : list RagResult) (allGrounding : list string) : M Response :=
  let finalAnswer := mergeResults ragResults in
  timestamp <- now ;;
  let response :=
    json_res
      [("sessionId", JStr currentSessionId);
       ("answer", finalAnswer);
       ("storesUsed", predictedStores);
       ("grounding", JArr (List.map JStr (take 10 allGrounding)));
       ("isCampusSearch", JBool true);
       ("totalGrounding", JNum (Z.of_nat (List.length allGrounding)));
       ("timestamp", JStr timestamp)] in
  background
    (createIfNew isNewSession email currentSessionId sessionName ;;;
     stamp <- now ;;
     appendMessageToSessionFile email currentSessionId
       [("role", JStr "assistant");
        ("question", JStr question);
        ("answer", finalAnswer);
        ("storesUsed", predictedStores);
        ("grounding", JArr (List.map JStr allGrounding));
        ("timestamp", JStr stamp);
        ("isCampusSearch", JBool true);
        ("method", JStr "campus_search");
        ("ragResultCount", JNum (Z.of_nat (List.length ragResults)))] ;;;
     logProviders email question accessible splitQuestions ragResults) ;;;
  ret response.

(** [!predictedStores || predictedStores.length === 0], on a value that
    is already truthy *)
Definition noneSelected (predictedStores : json) : bool :=
  match Js.prop predictedStores "length" with
  | Some (JNum 0) => true
  | _ => false
  end.

(** From the classifier's result to the response (source lines 435-650). *)
Definition answerFromClassification (email question currentSessionId : string)
  (isNewSession : bool) (sessionName : option string)
  (accessible : list StoreRef) (geminiKey : option string)
  (classification : json) : M Response :=
  stores <- getProp classification "stores" ;;
  let predictedStores := Js.or stores (JArr []) in
  split_questions <- getProp classification "split_questions" ;;
  let splitQuestions := Js.or split_questions (JObj []) in
  unanswered_ <- getProp classification "unanswered" ;;
  let unanswered := Js.or unanswered_ (JArr []) in
  if noneSelected predictedStores then
    noStoresPredicted email question currentSessionId isNewSession sessionName
      unanswered
  else
    selected <- iterate predictedStores ;;
    step <- ragLoop geminiKey splitQuestions question selected [] [] ;;
    match step with
    | Return failed qForStore =>
        ragFailed email question currentSessionId isNewSession sessionName
          accessible failed qForStore
    | Continue ragResults allGrounding =>
        mergeAndRespond email question currentSessionId isNewSession sessionName
          accessible predictedStores splitQuestions ragResults allGrounding
    end.

Definition campusSearch (email question : string) (sessionId : option string)
  (student : Student) : M Response :=
  let accessible := accessibleStores student in
  let storeNames := List.map storeName accessible in
  if (List.length storeNames =? 0)%nat then
    ret (json_res
           [("sessionId", JNull);
            ("answer", JStr "No RAG stores available for your account.");
            ("storesUsed", JArr []);
            ("grounding", JArr []);
            ("isCampusSearch", JBool true)])
  else
    university <- readUniversity (universityEmail student) ;;
    let geminiKey := resolveKey university in
    session <- resolveSession sessionId ;;
    let (isNewSession, currentSessionId) := session : bool * string in
    let sessionName := sessionNameFor isNewSession question in
    classification <- classifyStores geminiKey storeNames question ;;
    answerFromClassification email question currentSessionId isNewSession
      sessionName accessible geminiKey classification.

(** *** [GET /ask] *)

Definition shouldDoCampusSearch (isCampusSearch : option string) : bool :=
  match isCampusSearch with
  | Some flag => negb (String.eqb flag "false")
  | None => true
  end.

(** The outermost [catch]; no response has been sent when it runs. *)
Definition internalError (err : JsError) : M Response :=
  timestamp <- now ;;
  ret (status_json 500
         [("error", JStr "Internal Server Error");
          ("details", JStr (message err));
          ("timestamp", JStr timestamp)]).

Definition ask (req : Request) : M Response :=
  try_catch
    (match Js.truthy_str (q_email req), Js.truthy_str (q_question req) with
     | Some email, Some question =>
         student <- readStudent email ;;
         match student with
         | None => ret (status_json 404 [("error", JStr "Student not found")])
         | Some student =>
             if shouldDoCampusSearch (q_isCampusSearch req)
             then campusSearch email question (q_sessionId req) student
             else directGemini email question (q_sessionId req) student
         end
     | _, _ => ret (status_json 400 [("error", JStr "email & question required")])
     end)
    internalError.

(** *** The session routes *)

(** [await fs.unlink(file)] *)
Definition unlinkChat (file : string) : M unit :=
  fun w =>
    match fsUnlink file w with
    | inr w' => (Ok tt, w')
    | inl e => (Thrown (fsMessage e), w)
    end.

(** [await fs.readdir(CHAT_DIR)]; the order of the names is the
    directory's. *)
Definition readdirChat : M (list string) :=
  fun w => (Ok (map_to_list (chatDir w)).*1, w).

Definition sessionNotFound : Response :=
  status_json 404 [("error", JStr "Session not found")].

(** [GET /session/:email/:sessionId] (source lines 702-714).  The log
    line reads [data.messages?.length], which throws on [null]. *)
Definition getSession (email sessionId : string) : M Response :=
  try_catch
    (data <- readChat (getSessionFile email sessionId) ;;
     getProp data "messages" ;;;
     ret {| status := 200; body := data |})
    (fun _ => ret sessionNotFound).

(** The [catch] of the route that deletes a session:
    [err.code === 'ENOENT'] answers 404, any other error 500. *)
Definition deleteFailed (e : FsError) : Response :=
  match e with
  | ENOENT => sessionNotFound
  | EOTHER => status_json 500 [("error", JStr "Internal server error")]
  end.

(** [GET /session/delete/:email/:sessionId] (source lines 717-741):
    [fs.access], then [fs.unlink]. *)
Definition deleteSession (email sessionId : string) : M Response :=
  fun w =>
    let file := getSessionFile email sessionId in
    match fsAccess file w with
    | Some e => (Ok (deleteFailed e), w)
    | None =>
        match fsUnlink file w with
        | inl e => (Ok (deleteFailed e), w)
        | inr w' =>
            (Ok (json_res [("message", JStr "Session deleted successfully");
                           ("email", JStr email);
                           ("sessionId", JStr sessionId)]), w')
        end
    end.

(** [for (const file of files) if (file.startsWith(prefix)) try { unlink;
    deletedCount++ } catch {}] *)
Fixpoint unlinkEach (prefix : string) (files : list string) (deletedCount : nat)
  : M nat :=
  match files with
  | [] => ret deletedCount
  | file :: rest =>
      if String.prefix prefix file
      then
        counted <- try_catch (unlinkChat file ;;; ret (S deletedCount))
                     (fun _ => ret deletedCount) ;;
        unlinkEach prefix rest counted
      else unlinkEach prefix rest deletedCount
  end.

(** [GET /sessions/delete/all/:email] (source lines 744-772) *)
Definition deleteAllSessions (email : string) : M Response :=
  let safePrefix := Str.sanitize email in
  files <- readdirChat ;;
  deletedCount <- unlinkEach (safePrefix +:+ "__") files 0 ;;
  ret (json_res
         [("message", JStr ("Deleted " +:+ pretty deletedCount +:+ " sessions for user"));
          ("email", JStr email);
          ("deletedCount", JNum (Z.of_nat deletedCount))]).

End Router.

(** ** The routes of the router, in the order they are registered

    A path is the list of its segments; a parameter matches one segment. *)

Inductive Seg :=
| Lit (s : string)
| Param.

(** Literal segments are compared without regard to case. *)
Definition lowerChar (c : ascii) : ascii :=
  let n := nat_of_ascii c in
  if ((65 <=? n) && (n <=? 90))%nat then ascii_of_nat (n + 32) else c.

Fixpoint lower (s : string) : string :=
  match s with
  | EmptyString => EmptyString
  | String c r => String (lowerChar c) (lower r)
  end.

Inductive Handler :=
| HAsk
| HSessions
| HSession
| HDeleteSession
| HDeleteAll
| HProviderLogs
| HSummary.

Fixpoint matchPath (pattern : list Seg) (path : list string)
  : option (list string) :=
  match pattern, path with
  | [], [] => Some []
  | Lit s :: pattern', p :: path' =>
      if String.eqb s (lower p) then matchPath pattern' path' else None
  | Param :: pattern', p :: path' =>
      if String.eqb p "" then None
      else match matchPath pattern' path' with
           | Some params => Some (p :: params)
           | None => None
           end
  | _, _ => None
  end.

Definition routes : list (list Seg * Handler) :=
  [([Lit "ask"], HAsk);
   ([Lit "sessions"; Param], HSessions);
   ([Lit "session"; Param; Param], HSession);
   ([Lit "session"; Lit "delete"; Param; Param], HDeleteSession);
   ([Lit "sessions"; Lit "delete"; Lit "all"; Param], HDeleteAll);
   ([Lit "provider"; Lit "logs"; Param], HProviderLogs);
   ([Lit "session"; Lit "summary"; Param], HSummary)].

(** The first registered route that matches, with its parameters. *)
Fixpoint firstMatch (table : list (list Seg * Handler)) (path : list string)
  : option (Handler * list string) :=
  match table with
  | [] => None
  | (pattern, h) :: rest =>
      match matchPath pattern path with
      | Some params => Some (h, params)
      | None => firstMatch rest path
      end
  end.

Definition dispatch (path : list string) : option (Handler * list string) :=
  firstMatch routes path.

(** ** Notions the properties are stated with *)

Module Spec.

Definition mem (s : string) (l : list string) : bool :=
  existsb (String.eqb s) l.

(** [stores] is a list of names, each one an input store. *)
Definition storesSubset (input : list string) (c : json) : bool :=
  match Js.prop c "stores" with
  | Some (JArr l) =>
      forallb (fun v => match v with JStr s => mem s input | _ => false end) l
  | _ => false
  end.

(** Every key of [split_questions] is an element of [stores]. *)
Definition keysSelected (c : json) : bool :=
  match Js.prop c "stores", Js.prop c "split_questions" with
  | Some (JArr l), Some (JObj fs) =>
      forallb (fun k => existsb (Js.is_str k) l) (List.map fst fs)
  | _, _ => false
  end.

(** The invariant of a Classification Result. *)
Definition invariant (input : list string) (c : json) : bool :=
  storesSubset input c && keysSelected c.

(** What the classifier learns from the model. *)
Inductive ModelSaid :=
| NoKey
| CallFailed (e : JsError)
| Said (txt : string).

Definition modelSaid (rt : Runtime) (geminiKey : option string)
  (stores : list string) (question : string) (history : list Event) : ModelSaid :=
  match Js.truthy_str geminiKey with
  | None => NoKey
  | Some key =>
      match modelInitError rt "gemini-1.5-flash" with
      | Some e => CallFailed e
      | None =>
          match generateContent rt history key "gemini-1.5-flash"
                  (GenClassify stores question) with
          | GenThrows e => CallFailed e
          | GenReturns r => Said (modelText r)
          end
      end
  end.

(** The two parsing attempts of the specification: the strict one, then
    the text between the first opening and the last closing brace. *)
Definition strictParse (rt : Runtime) (txt : string) : option json :=
  JSON_parse rt (Str.trim txt).

Definition bracedParse (rt : Runtime) (txt : string) : option json :=
  let raw := Str.trim txt in
  match Str.indexOf "{" raw, Str.lastIndexOf "}" raw with
  | Some start, Some stop => JSON_parse rt (Str.slice raw start (stop + 1))
  | _, _ => None
  end.

(** What the classifier returns, by what the model said. *)
Definition classified (rt : Runtime) (stores : list string) (said : ModelSaid)
  : json :=
  match said with
  | NoKey | CallFailed _ => selection stores
  | Said txt =>
      if String.eqb txt "" then selection []
      else match strictParse rt txt with
           | Some parsed => parsed
           | None =>
               match bracedParse rt txt with
               | Some parsed => parsed
               | None => selection stores
               end
           end
  end.

(** The session document written when the append starts over. *)
Definition freshSession (rt : Runtime) (email sessionId : string)
  (messageObj : list (string * json)) (w : World) : json :=
  sessionData sessionId
    (Some (generateSessionName (Js.or (Js.assoc "question" messageObj) (JStr ""))))
    email (clock rt (ticks w)) (clock rt (S (ticks w))) [JObj messageObj].

(** The messages of a stored session document. *)
Definition messagesOf (doc : json) : list json :=
  match doc with
  | JObj fs =>
      match Js.assoc "messages" fs with
      | Some (JArr l) => l
      | _ => []
      end
  | _ => []
  end.

(** A session document the append applies to: an object whose
    [messages] is a list, or is missing or falsy and read as empty. *)
Definition appendable (d : option FileData)
  : option (list (string * json) * list json) :=
  match d with
  | Some (Doc (JObj fs)) =>
      match Js.or (Js.assoc "messages" fs) (JArr []) with
      | JArr l => Some (fs, l)
      | _ => None
      end
  | _ => None
  end.

(** A stored document that is a bare JSON array. *)
Definition bareArray (d : option FileData) : bool :=
  match d with
  | Some (Doc (JArr _)) => true
  | _ => false
  end.

(** How a retrieval call ended, as the store loop tells the cases apart. *)
Inductive Verdict :=
| Succeeded (d : RagData)
| Threw (e : JsError)
| Signalled.

Definition verdict (o : RagOutcome) : Verdict :=
  match o with
  | RagThrows e => Threw e
  | RagReturns (Some {| success := true; data := Some d |}) => Succeeded d
  | RagReturns _ => Signalled
  end.

Definition answerOf (d : RagData) : string :=
  default "" (Js.truthy_str (response_text d)).

Definition chunksOf (d : RagData) : list Chunk :=
  default [] (grounding_metadata d ≫= groundingChunks).

Section Runs.
Context (rt : Runtime) (key : option string) (splitQuestions : json)
        (question : string).

Definition rag_event (s : json) : Event :=
  EvRag key [s] (questionFor rt splitQuestions question s).

Definition rag_verdict (history : list Event) (s : json) : Verdict :=
  verdict (askQuestion rt history key [s] (questionFor rt splitQuestions question s)).


(** No store of the list gives a failure signal: each retrieval
    succeeds or throws, and the loop visits them all. *)
Inductive NoneSignals : list Event -> list json -> Prop :=
| none_done history : NoneSignals history []
| none_next history s rest :
    rag_verdict history s <> Signalled ->
    NoneSignals (history ++ [rag_event s]) rest ->
    NoneSignals history (s :: rest).


(** The result list of a loop that visits every store. *)
Fixpoint entries (history : list Event) (stores : list json) : list RagResult :=
  match stores with
  | [] => []
  | s :: rest =>
      match rag_verdict history s with
      | Succeeded d =>
          [{| store := s; answerText := answerOf d; resultChunks := chunksOf d |}]
      | Threw e =>
          [{| store := s; answerText := errorText s e; resultChunks := [] |}]
      | Signalled => []
      end ++ entries (history ++ [rag_event s]) rest
  end.

(** The evidence fragments in the order they are collected: store by
    store, and within a store chunk by chunk. *)
Fixpoint fragments (history : list Event) (stores : list json) : list string :=
  match stores with
  | [] => []
  | s :: rest =>
      match rag_verdict history s with
      | Succeeded d => groundingTexts (chunksOf d)
      | _ => []
      end ++ fragments (history ++ [rag_event s]) rest
  end.
End Runs.

(** What the handler reads off the classifier's result. *)
Definition predictedOf (c : json) : json := Js.or (Js.prop c "stores") (JArr []).

(** The selected stores, in the order the classifier returned them. *)
Definition selectedOf (c : json) : option (list json) :=
  match predictedOf c with
  | JArr l => Some l
  | JStr s => Some (Js.chars s)
  | _ => None
  end.






(** The key a turn of this student runs with. *)
Definition keyFor (rt : Runtime) (w : World) (student : Student) : option string :=
  resolveKey rt
    (universityEmail student ≫=
       fun e => universitiesDir w !! (Str.sanitize e +:+ ".json")).

(** A well-formed request of a known student. *)
Record Known (req : Request) (w : World) (email question : string)
  (student : Student) : Prop := {
  known_email : Js.truthy_str (q_email req) = Some email;
  known_question : Js.truthy_str (q_question req) = Some question;
  known_student : studentsDir w !! (Str.sanitize email +:+ ".json") = Some student
}.

(** A campus-mode request of a student with stores, up to the
    classifier's result [c]: the session of the turn is [sid], opened
    by this turn when [isNew], and [w2] is the world once the
    classifier has returned. *)
Record CampusTurn (rt : Runtime) (req : Request) (w : World)
  (email question : string) (student : Student)
  (isNew : bool) (sid : string) (c : json) (w2 : World) : Prop := {
  turn_known : Known req w email question student;
  turn_campus : shouldDoCampusSearch (q_isCampusSearch req) = true;
  turn_stores : accessibleStores student <> [];
  turn_classified :
    exists w1,
      resolveSession rt (q_sessionId req) w = (Ok (isNew, sid), w1) /\
      classifyStores rt (keyFor rt w student)
        (List.map storeName (accessibleStores student)) question w1 = (Ok c, w2)
}.

(** The five statuses of the direct path, by the message text. *)
Definition mentions (words : list string) (m : string) : bool :=
  existsb (fun w => Str.includes w m) words.

Definition expectedStatus (m : string) : nat :=
  if mentions ["API key"; "auth"] m then 401
  else if mentions ["quota"; "exceeded"] m then 429
  else if mentions ["network"; "connect"] m then 503
  else if mentions ["model"] m then 400
  else 500.

End Spec.

(** ** A worked scenario

    One student with two departments, a university key, a clock that
    counts seconds, and the reader [JsonText.parse].  The model's answer
    and the retrieval service are left open. *)

Module Demo.

(** [s] with every apostrophe standing for a double quote. *)
Fixpoint quoted (s : string) : string :=
  match s with
  | EmptyString => EmptyString
  | String c r =>
      String (if Ascii.eqb c "'"%char then "034"%char else c) (quoted r)
  end.

Definition says (t : string) : GenOutcome :=
  GenReturns {| response_text_of := Some (quoted t); candidate_text := None |}.

(** The members every object inherits: functions, and the prototype
    itself under [__proto__]. *)
Definition builtin (base : json) (name : string) : option (option json) :=
  match base with
  | JObj _ =>
      if String.eqb name "__proto__" then Some (Some (JObj []))
      else if existsb (String.eqb name)
                ["constructor"; "hasOwnProperty"; "isPrototypeOf";
                 "propertyIsEnumerable"; "toLocaleString"; "toString"; "valueOf";
                 "__defineGetter__"; "__defineSetter__";
                 "__lookupGetter__"; "__lookupSetter__"]
           then Some None
           else None
  | _ => None
  end.

(** The chat directory has no subdirectory, and the session paths of
    the scenarios lead nowhere else: a path that leaves the two
    directories finds nothing, and nothing can be written there. *)
Definition runtime (model : GenOutcome) (rag : json -> RagOutcome) : Runtime :=
  {| JSON_parse := JsonText.parse;
     env_GEMINI_API_KEY := None;
     modelInitError := fun _ => None;
     generateContent := fun _ _ _ _ => model;
     askQuestion := fun _ _ stores _ =>
       match stores with
       | [s] => rag s
       | _ => RagReturns None
       end;
     clock := fun n => "2024-05-01T09:00:" +:+ pretty n +:+ "Z";
     dateNow := fun n => "17145532000" +:+ pretty n;
     randomSuffix := fun _ => "k3x9qa";
     inheritedMember := builtin;
     strayRead := fun _ _ => inl ENOENT;
     strayWrite := fun _ _ _ => inl ENOENT;
     strayAccess := fun _ _ => Some ENOENT;
     strayUnlink := fun _ _ => inl ENOENT |}.

Definition found (answer : string) (evidence : list string) : RagOutcome :=
  RagReturns
    (Some {| success := true;
             data := Some {| response_text := Some answer;
                             grounding_metadata :=
                               Some {| groundingChunks :=
                                 Some (List.map
                                         (fun e => {| retrievedContext :=
                                                        Some {| text := Some e |} |})
                                         evidence) |} |} |}).

Definition notFound : RagOutcome :=
  RagReturns (Some {| success := false; data := None |}).

Definition ann : Student :=
  {| universityEmail := Some "admin@uni.edu";
     accessibleStores :=
       [ {| storeName := "library"; accountEmail := Some "lib@uni.edu" |};
         {| storeName := "finance"; accountEmail := Some "fin@uni.edu" |} ] |}.

Definition bob : Student :=
  {| universityEmail := Some "admin@uni.edu"; accessibleStores := [] |}.

Definition world : World :=
  {| studentsDir := {[ "ann@uni.edu.json" := ann; "bob@uni.edu.json" := bob ]};
     universitiesDir :=
       {[ "admin@uni.edu.json" := {| apiKeyInfo_key := Some "key-1" |} ]};
     chatDir := ∅;
     providerLogsDir := ∅;
     outside := [];
     trace := [];
     ticks := 0 |}.

Definition request (email : string) (flag : option string) : Request :=
  {| q_email := Some email;
     q_question := Some "What are library hours and my fee balance?";
     q_sessionId := None;
     q_isCampusSearch := flag |}.

Definition names : list string := ["library"; "finance"].

(** The model names a store the student does not have, and splits the
    question for yet another one. *)
Definition inventive : Runtime :=
  runtime
    (says "{'stores':['cafeteria'],'split_questions':{'gym':'Is the gym open?'},'unanswered':[]}")
    (fun _ => notFound).

(** The model answers in prose. *)
Definition chatty : Runtime :=
  runtime (says "The library can answer this.") (fun _ => notFound).

(** One turn of a transcript. *)
Definition turn : list (string * json) :=
  [("role", JStr "assistant");
   ("question", JStr "When are fees due?");
   ("answer", JStr "By the first of June.")].

(** A stored session file whose [messages] is not a list. *)
Definition damaged : World :=
  with_chat
    (insert "ann@uni.edu__s1.json"
       (Doc (JObj [("sessionId", JStr "s1");
                   ("sessionName", JStr "Library hours");
                   ("messages", JStr "archived")])))
    world.

(** The model splits the question between the two departments. *)
Definition plan : GenOutcome :=
  says "{'stores':['library','finance'],'split_questions':{'library':'What are library hours?','finance':'What is my fee balance?'},'unanswered':[]}".

Definition libraryAnswer : RagOutcome :=
  found "Open 9am to 5pm." ["L1"; "L2"; "L3"; "L4"; "L5"; "L6"; "L7"].

Definition financeAnswer : RagOutcome :=
  found "No fees are due." ["F1"; "F2"; "F3"; "F4"; "F5"].

(** Both departments answer. *)
Definition helpful : Runtime :=
  runtime plan
    (fun s => if Js.is_str "library" s then libraryAnswer else financeAnswer).

(** Only the library is selected. *)
Definition focused : Runtime :=
  runtime (says "{'stores':['library']}") (fun _ => libraryAnswer).




(** The call to the model is refused. *)
Definition refused : Runtime :=
  runtime
    (GenThrows {| message := "[GoogleGenerativeAI Error]: API key not valid." |})
    (fun _ => notFound).

(** The model answers with the empty text. *)
Definition silent : Runtime :=
  runtime (says "") (fun _ => notFound).

End Demo.

(** ** Notions of the further properties *)

Module View.

(** A session path the router can write: the file is in the chat
    directory already, or the path is a name that can be given to a new
    file there. *)
Definition writable (w : World) (file : string) : Prop :=
  is_Some (chatDir w !! file) \/ Path.plainName file = true.

(** A computation that makes no call outside the process. *)
Definition quiet {A} (m : M A) : Prop :=
  forall w, trace (snd (m w)) = trace w.

(** A session id without a path separator. *)
Definition oneSegment (sessionId : string) : bool :=
  negb (Path.hasChar "/" sessionId).

(** The messages of a list appended one after the other. *)
Fixpoint appendEach (rt : Runtime) (email sessionId : string)
  (msgs : list (list (string * json))) : M unit :=
  match msgs with
  | [] => ret tt
  | m :: rest =>
      appendMessageToSessionFile rt email sessionId m ;;;
      appendEach rt email sessionId rest
  end.

(** A text without white space. *)
Fixpoint blankFree (s : string) : bool :=
  match s with
  | EmptyString => true
  | String c r => negb (Str.is_ws c) && blankFree r
  end.

(** A word: a non-empty text without white space. *)
Definition word (s : string) : Prop := s <> "" /\ blankFree s = true.


(** The names in the chat directory that start with [prefix]. *)
Definition namesWith (prefix : string) (w : World) : list string :=
  List.filter (String.prefix prefix) (map_to_list (chatDir w)).*1.




End View.

(** ** Further scenarios *)

Module Cases.

(** The model answers the bare question. *)
Definition direct : Runtime :=
  Demo.runtime
    (GenReturns {| response_text_of := Some "Fees are due on the first of June.";
                   candidate_text := None |})
    (fun _ => Demo.notFound).

(** The model's whole answer is the JSON value [null]. *)
Definition nullish : Runtime :=
  Demo.runtime (Demo.says "null") (fun _ => Demo.notFound).

(** No university key, no environment key. *)
Definition keyless : World :=
  {| studentsDir := studentsDir Demo.world;
     universitiesDir := ∅;
     chatDir := ∅;
     providerLogsDir := ∅;
     outside := [];
     trace := [];
     ticks := 0 |}.

(** No model name is accepted. *)
Definition modelless : Runtime :=
  {| JSON_parse := JsonText.parse;
     env_GEMINI_API_KEY := None;
     modelInitError := fun _ => Some {| message := "unsupported model" |};
     generateContent := fun _ _ _ _ => GenThrows {| message := "unreachable" |};
     askQuestion := fun _ _ _ _ => RagReturns None;
     clock := fun n => "2024-05-01T09:00:" +:+ pretty n +:+ "Z";
     dateNow := fun n => "17145532000" +:+ pretty n;
     randomSuffix := fun _ => "k3x9qa";
     inheritedMember := Demo.builtin;
     strayRead := fun _ _ => inl ENOENT;
     strayWrite := fun _ _ _ => inl ENOENT;
     strayAccess := fun _ _ => Some ENOENT;
     strayUnlink := fun _ _ => inl ENOENT |}.

(** Two sessions of ann, one of another student. *)
Definition shelf : World :=
  with_chat
    (fun _ =>
       {[ "ann@uni.edu__s1.json" := Doc (sessionData "s1" (Some "Fees") "ann@uni.edu"
                                          "2024-04-01" "2024-04-01" []);
          "ann@uni.edu__s2.json" := Unparsable;
          "bob@uni.edu__s1.json" := Doc (JArr []) ]})
    Demo.world.


Definition second : list (string * json) :=
  [("role", JStr "assistant");
   ("question", JStr "And the library?");
   ("answer", JStr "Open 9am to 5pm.")].

End Cases.

(** * Properties *)

(** ** The helpers on small inputs *)

Example trim_both_ends : Str.trim "  library hours  " = "library hours".
Proof. reflexivity. Qed.

Example braces_found :
  Str.indexOf "{" "ok {a} {b} end" = Some 3
  /\ Str.lastIndexOf "}" "ok {a} {b} end" = Some 9
  /\ Str.slice "ok {a} {b} end" 3 10 = "{a} {b}".
Proof. repeat split. Qed.

Example sanitize_email : Str.sanitize "ann+lib@uni.edu" = "ann_lib@uni.edu".
Proof. reflexivity. Qed.

Example to_string_nested :
  Js.to_string (JArr [JNum 1; JNull; JArr [JStr "a"; JNum (-2)]; JObj []])
  = "1,,a,-2,[object Object]".
Proof. reflexivity. Qed.

Example parse_repeated_key :
  JsonText.parse (Demo.quoted "{'a': 1, 'b': [true, null], 'a': 'x'}")
  = Some (JObj [("a", JStr "x"); ("b", JArr [JBool true; JNull])]).
Proof. reflexivity. Qed.

Example parse_rejects_prose : JsonText.parse "Sure, here it is: {}" = None.
Proof. reflexivity. Qed.

Example parse_rejects_empty : JsonText.parse "" = None.
Proof. reflexivity. Qed.

Example sessionName_short :
  generateSessionName (JStr "  When are fees due?  ") = "When are fees due?".
Proof. reflexivity. Qed.

Example sessionName_long :
  generateSessionName
    (JStr "one two three four five six seven eight nine ten eleven twelve")
  = "one two three four five six seven eight nine ten...".
Proof. reflexivity. Qed.

Example sessionName_missing :
  generateSessionName (JStr "") = "New Session"
  /\ generateSessionName JNull = "New Session".
Proof. split; reflexivity. Qed.

Example braced_answer_is_parsed :
  fst (classifyStores
         (Demo.runtime (Demo.says "Sure! {'stores':['finance']} Anything else?")
            (fun _ => Demo.notFound))
         (Some "key-1") Demo.names "When are fees due?" Demo.world)
  = Ok (JObj [("stores", JArr [JStr "finance"])]).
Proof. vm_compute. reflexivity. Qed.

Example no_key_selects_all :
  fst (classifyStores Demo.chatty None Demo.names "When are fees due?" Demo.world)
  = Ok (selection Demo.names).
Proof. reflexivity. Qed.

(** ** The classifier *)

Lemma mem_here s l : Spec.mem s (s :: l) = true.
Proof. unfold Spec.mem. simpl. now rewrite String.eqb_refl. Qed.

Lemma mem_cons s a l : Spec.mem s l = true -> Spec.mem s (a :: l) = true.
Proof. unfold Spec.mem. simpl. intros ->. apply orb_true_r. Qed.

Lemma storesSubset_selection (input picked : list string) :
  (forall s, In s picked -> Spec.mem s input = true) ->
  Spec.storesSubset input (selection picked) = true.
Proof.
  intros H. unfold Spec.storesSubset, selection. simpl.
  apply forallb_forall. intros v Hv. apply in_map_iff in Hv as [s [<- Hs]].
  now apply H.
Qed.

Lemma mem_In s l : In s l -> Spec.mem s l = true.
Proof.
  induction l as [|a l IH]; simpl; [tauto|].
  intros [->|H]; [apply mem_here | apply mem_cons; auto].
Qed.

Lemma invariant_selection (input : list string) :
  Spec.invariant input (selection input) = true.
Proof.
  unfold Spec.invariant.
  rewrite (storesSubset_selection input input (fun s => mem_In s input)).
  reflexivity.
Qed.

Lemma invariant_selection_nil (input : list string) :
  Spec.invariant input (selection []) = true.
Proof. reflexivity. Qed.

Lemma classifyStores_cases rt geminiKey stores question w :
  exists w',
    classifyStores rt geminiKey stores question w =
      (Ok (Spec.classified rt stores
             (Spec.modelSaid rt geminiKey stores question (trace w))), w')
    /\ studentsDir w' = studentsDir w
    /\ universitiesDir w' = universitiesDir w
    /\ chatDir w' = chatDir w
    /\ providerLogsDir w' = providerLogsDir w
    /\ ticks w' = ticks w
    /\ (forall e, In e (trace w') -> In e (trace w) \/ exists k m a, e = EvGenerate k m a).
Proof.
  unfold classifyStores, Spec.modelSaid, Spec.classified, try_catch, bind, callModel, ret.
  destruct (Js.truthy_str geminiKey) as [key|]; [|eexists; repeat split; eauto].
  destruct (modelInitError rt "gemini-1.5-flash"); [eexists; repeat split; eauto|].
  assert (Hev : forall e, In e (trace (with_event
            (EvGenerate key "gemini-1.5-flash" (GenClassify stores question)) w)) ->
            In e (trace w) \/ exists k m a, e = EvGenerate k m a).
  { simpl. intros e He. apply in_app_iff in He as [He|[<-|[]]]; eauto. }
  destruct (generateContent rt (trace w) key "gemini-1.5-flash"
              (GenClassify stores question)) as [e|r];
    [eexists; repeat split; eauto|].
  destruct (String.eqb (modelText r) ""); [eexists; repeat split; eauto|].
  unfold Spec.strictParse, Spec.bracedParse.
  destruct (JSON_parse rt (Str.trim (modelText r)));
    [eexists; repeat split; eauto|].
  destruct (Str.indexOf "{" (Str.trim (modelText r)));
    [|eexists; repeat split; eauto].
  destruct (Str.lastIndexOf "}" (Str.trim (modelText r)));
    [|eexists; repeat split; eauto].
  destruct (JSON_parse rt _); eexists; repeat split; eauto.
Qed.

(** C1, as amended.  The classifier never checks what it parsed.  When
    the model's answer is not empty and parses, strictly or between its
    outermost braces, the result is the parsed JSON, unchanged and
    unvalidated.  In every other case (no key, a failed call, an empty
    answer, an answer that parses neither way) the result satisfies the
    invariant of a Classification Result: [stores] within the input
    list, every key of [split_questions] in [stores]. *)
Theorem classifyStores_invariant_unless_parsed rt geminiKey stores question w :
  exists c w',
    classifyStores rt geminiKey stores question w = (Ok c, w') /\
    (forall txt parsed,
        Spec.modelSaid rt geminiKey stores question (trace w) = Spec.Said txt ->
        txt <> "" ->
        Spec.strictParse rt txt = Some parsed \/
        (Spec.strictParse rt txt = None /\ Spec.bracedParse rt txt = Some parsed) ->
        c = parsed) /\
    ((forall txt,
         Spec.modelSaid rt geminiKey stores question (trace w) = Spec.Said txt ->
         txt = "" \/
         (Spec.strictParse rt txt = None /\ Spec.bracedParse rt txt = None)) ->
     Spec.invariant stores c = true).
Proof.
  destruct (classifyStores_cases rt geminiKey stores question w) as (w' & E & _).
  eexists; exists w'. split; [exact E|].
  destruct (Spec.modelSaid rt geminiKey stores question (trace w)) as [|e|txt];
    simpl.
  - split; [discriminate|]. intros _. apply invariant_selection.
  - split; [discriminate|]. intros _. apply invariant_selection.
  - split.
    + intros txt' parsed [= <-] Hne Hp.
      destruct (String.eqb_spec txt ""); [contradiction|].
      destruct Hp as [-> | [-> ->]]; reflexivity.
    + intros H. destruct (H txt eq_refl) as [-> | [-> ->]].
      * apply invariant_selection_nil.
      * destruct (String.eqb txt "");
          [apply invariant_selection_nil | apply invariant_selection].
Qed.

Lemma classifyStores_invariant_unless_parsed_witness :
  fst (classifyStores Demo.inventive (Some "key-1") Demo.names
         "Is the gym open?" Demo.world)
  = Ok (JObj [("stores", JArr [JStr "cafeteria"]);
              ("split_questions", JObj [("gym", JStr "Is the gym open?")]);
              ("unanswered", JArr [])]).
Proof.
  destruct (classifyStores_invariant_unless_parsed Demo.inventive (Some "key-1")
              Demo.names "Is the gym open?" Demo.world) as (c & w' & E & Hp & _).
  rewrite E. simpl. f_equal.
  eapply Hp; [vm_compute; reflexivity | discriminate | left; vm_compute; reflexivity].
Defined.

(** C1 fails as stated: the model names the store [cafeteria] and splits
    for [gym]; the student has [library] and [finance]. *)
Lemma classifyStores_invariant_counterexample :
  fst (classifyStores Demo.inventive (Some "key-1") Demo.names
         "Is the gym open?" Demo.world)
  = Ok (JObj [("stores", JArr [JStr "cafeteria"]);
              ("split_questions", JObj [("gym", JStr "Is the gym open?")]);
              ("unanswered", JArr [])])
  /\ Spec.storesSubset Demo.names
       (JObj [("stores", JArr [JStr "cafeteria"]);
              ("split_questions", JObj [("gym", JStr "Is the gym open?")]);
              ("unanswered", JArr [])]) = false
  /\ Spec.keysSelected
       (JObj [("stores", JArr [JStr "cafeteria"]);
              ("split_questions", JObj [("gym", JStr "Is the gym open?")]);
              ("unanswered", JArr [])]) = false.
Proof. repeat split; vm_compute; reflexivity. Qed.

(** C5, as amended.  The classifier always returns; it returns the
    all-stores selection when the call to the model fails and when a
    non-empty answer parses neither strictly nor between its outermost
    braces.  An empty answer yields the empty selection instead. *)
Theorem classifyStores_falls_back rt geminiKey stores question w :
  exists c w',
    classifyStores rt geminiKey stores question w = (Ok c, w') /\
    (forall e,
        Spec.modelSaid rt geminiKey stores question (trace w) = Spec.CallFailed e ->
        c = selection stores) /\
    (forall txt,
        Spec.modelSaid rt geminiKey stores question (trace w) = Spec.Said txt ->
        txt <> "" ->
        Spec.strictParse rt txt = None ->
        Spec.bracedParse rt txt = None ->
        c = selection stores) /\
    (Spec.modelSaid rt geminiKey stores question (trace w) = Spec.Said "" ->
     c = selection []).
Proof.
  destruct (classifyStores_cases rt geminiKey stores question w) as (w' & E & _).
  eexists; exists w'. split; [exact E|].
  repeat split.
  - intros e ->. reflexivity.
  - intros txt -> Hne Hs Hb. simpl.
    destruct (String.eqb_spec txt ""); [contradiction|].
    now rewrite Hs, Hb.
  - intros ->. reflexivity.
Qed.

Lemma classifyStores_falls_back_witness :
  fst (classifyStores Demo.chatty (Some "key-1") Demo.names
         "Where is the library?" Demo.world)
  = Ok (selection Demo.names).
Proof.
  destruct (classifyStores_falls_back Demo.chatty (Some "key-1") Demo.names
              "Where is the library?" Demo.world) as (c & w' & E & _ & H & _).
  rewrite E. simpl. f_equal.
  apply (H "The library can answer this."); [reflexivity | discriminate | reflexivity | reflexivity].
Defined.

(** C5 fails as stated: the empty answer parses neither way, and the
    classifier selects no store rather than all of them. *)
Lemma classifyStores_empty_answer_counterexample :
  Spec.modelSaid Demo.silent (Some "key-1") Demo.names "Where is the library?" []
    = Spec.Said ""
  /\ Spec.strictParse Demo.silent "" = None
  /\ Spec.bracedParse Demo.silent "" = None
  /\ fst (classifyStores Demo.silent (Some "key-1") Demo.names
            "Where is the library?" Demo.world)
     = Ok (selection [])
  /\ selection [] <> selection Demo.names.
Proof. repeat split; try (vm_compute; reflexivity). discriminate. Qed.

(** ** The session transcript *)

Lemma assoc_set_same k v fs : Js.assoc k (Js.assoc_set k v fs) = Some v.
Proof.
  induction fs as [|[k' v'] fs IH]; simpl.
  - now rewrite String.eqb_refl.
  - destruct (String.eqb k k') eqn:E; simpl; rewrite ?String.eqb_refl, ?E; auto.
Qed.

Lemma assoc_set_other k k' v fs :
  k' <> k -> Js.assoc k' (Js.assoc_set k v fs) = Js.assoc k' fs.
Proof.
  intros Hne. induction fs as [|[k0 v0] fs IH]; simpl.
  - destruct (String.eqb_spec k' k); [contradiction|reflexivity].
  - destruct (String.eqb_spec k k0) as [->|Hk]; simpl.
    + destruct (String.eqb_spec k' k0); [contradiction|reflexivity].
    + destruct (String.eqb_spec k' k0); auto.
Qed.

Lemma chat_insert_other (file other : string) d (w : World) :
  other <> file ->
  chatDir (with_chat (insert file d) w) !! other = chatDir w !! other.
Proof. intros H. simpl. rewrite lookup_insert_ne; congruence. Qed.

Lemma chat_insert_same (file : string) d (w : World) :
  chatDir (with_chat (insert file d) w) !! file = Some d.
Proof. simpl. apply lookup_insert_eq. Qed.

Lemma chatDir_tick w : chatDir (tick w) = chatDir w.
Proof. reflexivity. Qed.

(** *** Plain names *)

Lemma split_one s : Path.hasChar "/" s = false -> Path.split s = [s].
Proof.
  induction s as [|c r IH]; [reflexivity|].
  cbn [Path.hasChar Path.split].
  destruct (Ascii.eqb "/" c); cbn [orb]; [discriminate|].
  intros H. now rewrite (IH H).
Qed.

Lemma normalize_one s :
  Path.hasChar "/" s = false -> s <> "" -> s <> "." -> s <> ".." ->
  Path.normalize s = (0, [s])%nat.
Proof.
  intros Hs He Hd Hdd. unfold Path.normalize. rewrite (split_one s Hs). simpl.
  destruct (String.eqb_spec s ""); [contradiction|].
  destruct (String.eqb_spec s "."); [contradiction|].
  destruct (String.eqb_spec s ".."); [contradiction|].
  reflexivity.
Qed.

Lemma plainName_parts file :
  Path.plainName file = true ->
  Path.hasChar "/" file = false /\ Path.hasChar "000" file = false /\
  file <> "" /\ file <> "." /\ file <> ".." /\ Path.fits file = true.
Proof.
  unfold Path.plainName. rewrite !andb_true_iff, !negb_true_iff.
  intros (((((H1 & H2) & H3) & H4) & H5) & H6).
  repeat split; try assumption.
  - intros ->. discriminate.
  - intros ->. discriminate.
  - intros ->. discriminate.
Qed.

Lemma place_plainName file :
  Path.plainName file = true -> Path.place file = Path.ChatFile file.
Proof.
  intros H. apply plainName_parts in H as (Hs & _ & He & Hd & Hdd & _).
  unfold Path.place. now rewrite normalize_one.
Qed.

Lemma target_writable w file : View.writable w file -> target file w = InChat file.
Proof.
  intros [[d Hd]|Hp]; unfold target.
  - now rewrite Hd.
  - destruct (chatDir w !! file); [reflexivity|].
    rewrite (place_plainName file Hp).
    apply plainName_parts in Hp as (_ & -> & _). reflexivity.
Qed.

Lemma canWrite_writable w file :
  View.writable w file -> canWrite (chatDir w) file = true.
Proof.
  intros [Hd|Hp]; unfold canWrite.
  - rewrite bool_decide_eq_true_2 by assumption. reflexivity.
  - apply plainName_parts in Hp as (_ & _ & _ & _ & _ & ->). apply orb_true_r.
Qed.


Lemma writable_written w file other d :
  View.writable w file -> View.writable (with_chat (insert other d) w) file.
Proof.
  intros [Hd|Hp]; [left|now right]. simpl.
  destruct (decide (other = file)) as [->|Hne].
  - rewrite lookup_insert_eq. eauto.
  - now rewrite lookup_insert_ne.
Qed.

(** On a path the router can write, reading and writing are those of
    the chat map. *)
Lemma readChat_writable rt w file :
  View.writable w file ->
  readChat rt file w =
    match chatDir w !! file with
    | Some (Doc v) => (Ok v, w)
    | Some Unparsable => (Thrown {| message := "Unexpected token in JSON" |}, w)
    | None => (Thrown (fsMessage (absent file)), w)
    end.
Proof.
  intros H. unfold readChat, fsRead, lookupFile. rewrite (target_writable w file H).
  destruct (chatDir w !! file) as [[|v]|]; reflexivity.
Qed.

Lemma writeChat_writable rt w file v :
  View.writable w file ->
  writeChat rt file v w = (Ok tt, with_chat (insert file (Doc v)) w).
Proof.
  intros H. unfold writeChat, fsWrite.
  now rewrite (target_writable w file H), (canWrite_writable w file H).
Qed.

Lemma writable_present w file d : chatDir w !! file = Some d -> View.writable w file.
Proof. intros H. left. eauto. Qed.

(** *** The three ways an append ends *)

Lemma appendMessage_starts_over rt email sessionId messageObj w :
  View.writable w (getSessionFile email sessionId) ->
  Spec.appendable (chatDir w !! getSessionFile email sessionId) = None ->
  Spec.bareArray (chatDir w !! getSessionFile email sessionId) = false ->
  appendMessageToSessionFile rt email sessionId messageObj w =
    (Ok tt,
     with_chat (insert (getSessionFile email sessionId)
                  (Doc (Spec.freshSession rt email sessionId messageObj w)))
       (tick (tick w))).
Proof.
  intros Hw.
  assert (Hw2 : View.writable (tick (tick w)) (getSessionFile email sessionId))
    by exact Hw.
  assert (Hw1 : View.writable (tick w) (getSessionFile email sessionId))
    by exact Hw.
  unfold appendMessageToSessionFile, try_catch, bind, Spec.appendable,
    Spec.bareArray, Spec.freshSession.
  rewrite (readChat_writable rt w _ Hw).
  destruct (chatDir w !! getSessionFile email sessionId) as [[|v]|];
    try (intros _ _; unfold now; simpl; now rewrite (writeChat_writable rt _ _ _ Hw2)).
  destruct v as [|b|n|s|l|fs]; try discriminate;
    try (intros _ _; unfold now; simpl; now rewrite (writeChat_writable rt _ _ _ Hw2)).
  simpl. destruct (Js.or (Js.assoc "messages" fs) (JArr [])); try discriminate;
    intros _ _; unfold now; simpl; now rewrite (writeChat_writable rt _ _ _ Hw2).
Qed.

Lemma appendMessage_appends rt email sessionId messageObj w fs l :
  Spec.appendable (chatDir w !! getSessionFile email sessionId) = Some (fs, l) ->
  appendMessageToSessionFile rt email sessionId messageObj w =
    (Ok tt,
     with_chat (insert (getSessionFile email sessionId)
                  (Doc (JObj (Js.assoc_set "updatedAt" (JStr (clock rt (ticks w)))
                                (Js.assoc_set "messages" (JArr (l ++ [JObj messageObj])) fs)))))
       (tick w)).
Proof.
  intros Happ.
  assert (Hw : View.writable w (getSessionFile email sessionId)).
  { destruct (chatDir w !! getSessionFile email sessionId) eqn:E;
      [eapply writable_present; eauto | discriminate]. }
  assert (Hw1 : View.writable (tick w) (getSessionFile email sessionId)) by exact Hw.
  revert Happ.
  unfold appendMessageToSessionFile, try_catch, bind, Spec.appendable.
  rewrite (readChat_writable rt w _ Hw).
  destruct (chatDir w !! getSessionFile email sessionId) as [[|v]|]; try discriminate.
  destruct v as [|b|n|s|l0|fs0]; try discriminate.
  simpl. destruct (Js.or (Js.assoc "messages" fs0) (JArr [])); try discriminate.
  intros [= -> ->]. unfold now. simpl.
  now rewrite (writeChat_writable rt _ _ _ Hw1).
Qed.

Lemma appendMessage_bare_array rt email sessionId messageObj w :
  Spec.bareArray (chatDir w !! getSessionFile email sessionId) = true ->
  exists l,
    chatDir w !! getSessionFile email sessionId = Some (Doc (JArr l)) /\
    appendMessageToSessionFile rt email sessionId messageObj w =
      (Ok tt, with_chat (insert (getSessionFile email sessionId) (Doc (JArr l))) (tick w)).
Proof.
  intros Hb.
  assert (Hw : View.writable w (getSessionFile email sessionId)).
  { destruct (chatDir w !! getSessionFile email sessionId) eqn:E;
      [eapply writable_present; eauto | discriminate]. }
  assert (Hw1 : View.writable (tick w) (getSessionFile email sessionId)) by exact Hw.
  revert Hb.
  unfold appendMessageToSessionFile, try_catch, bind, Spec.bareArray.
  rewrite (readChat_writable rt w _ Hw).
  destruct (chatDir w !! getSessionFile email sessionId) as [[|v]|]; try discriminate.
  destruct v as [|b|n|s|l|fs]; try discriminate.
  intros _. exists l. split; [reflexivity|]. unfold now. simpl.
  now rewrite (writeChat_writable rt _ _ _ Hw1).
Qed.

(** C10, as amended.  Take a session path the router can write: the
    file is in the chat directory, or the path is a plain name that can
    be given to a new file.  On a session document (an object whose
    [messages] is a list, or is missing or falsy) the append adds the
    message after the earlier ones, refreshes [updatedAt] and keeps
    every other field.  On a bare JSON array it writes the array back as
    it was, so the message is not stored.  In every other case (the file
    is absent, does not parse or holds anything else) it starts a fresh
    session whose [messages] is the one message and whose [sessionName]
    comes from the message's question. *)
Theorem appendMessage_appends_or_starts_over rt email sessionId messageObj w :
  View.writable w (getSessionFile email sessionId) ->
  exists w',
    appendMessageToSessionFile rt email sessionId messageObj w = (Ok tt, w') /\
    match Spec.appendable (chatDir w !! getSessionFile email sessionId) with
    | Some (fs, l) =>
        exists fs',
          chatDir w' !! getSessionFile email sessionId = Some (Doc (JObj fs')) /\
          Spec.messagesOf (JObj fs') = l ++ [JObj messageObj] /\
          Js.assoc "updatedAt" fs' = Some (JStr (clock rt (ticks w))) /\
          (forall k, k <> "messages" -> k <> "updatedAt" ->
                     Js.assoc k fs' = Js.assoc k fs)
    | None =>
        if Spec.bareArray (chatDir w !! getSessionFile email sessionId)
        then chatDir w' !! getSessionFile email sessionId
             = chatDir w !! getSessionFile email sessionId
        else
          exists doc,
            chatDir w' !! getSessionFile email sessionId = Some (Doc doc) /\
            Spec.messagesOf doc = [JObj messageObj] /\
            Js.prop doc "sessionName" =
              Some (JStr (generateSessionName
                            (Js.or (Js.assoc "question" messageObj) (JStr "")))) /\
            Js.prop doc "sessionId" = Some (JStr sessionId) /\
            Js.prop doc "email" = Some (JStr email)
    end.
Proof.
  intros Hw.
  destruct (Spec.appendable (chatDir w !! getSessionFile email sessionId))
    as [[fs l]|] eqn:Happ.
  - rewrite (appendMessage_appends rt email sessionId messageObj w fs l Happ).
    eexists. split; [reflexivity|].
    eexists. split; [apply chat_insert_same|].
    split; [|split].
    + unfold Spec.messagesOf.
      rewrite assoc_set_other by discriminate. now rewrite assoc_set_same.
    + apply assoc_set_same.
    + intros k Hm Hu. now rewrite !assoc_set_other.
  - destruct (Spec.bareArray (chatDir w !! getSessionFile email sessionId)) eqn:Hb.
    + destruct (appendMessage_bare_array rt email sessionId messageObj w Hb)
        as (l & Hl & E).
      rewrite E. eexists. split; [reflexivity|].
      rewrite chat_insert_same. now rewrite Hl.
    + rewrite (appendMessage_starts_over rt email sessionId messageObj w Hw Happ Hb).
      eexists. split; [reflexivity|].
      eexists. split; [apply chat_insert_same|].
      repeat split.
Qed.

Lemma appendMessage_witness :
  exists w' doc,
    appendMessageToSessionFile Demo.chatty "ann@uni.edu" "s1" Demo.turn Demo.world
      = (Ok tt, w') /\
    chatDir w' !! "ann@uni.edu__s1.json" = Some (Doc doc) /\
    Spec.messagesOf doc = [JObj Demo.turn] /\
    Js.prop doc "sessionName" = Some (JStr "When are fees due?").
Proof.
  destruct (appendMessage_appends_or_starts_over Demo.chatty "ann@uni.edu" "s1"
              Demo.turn Demo.world) as (w' & E & H).
  { right. vm_compute. reflexivity. }
  assert (Hn : Spec.appendable
                 (chatDir Demo.world !! getSessionFile "ann@uni.edu" "s1") = None)
    by (vm_compute; reflexivity).
  assert (Hb : Spec.bareArray
                 (chatDir Demo.world !! getSessionFile "ann@uni.edu" "s1") = false)
    by (vm_compute; reflexivity).
  rewrite Hn, Hb in H. destruct H as (doc & Hd & Hm & Hn' & _).
  exists w', doc. repeat split; assumption.
Defined.

(** C10 fails as stated: the stored file parses, yet the message is not
    added to what was there; the session starts over under a new name. *)
Lemma appendMessage_counterexample :
  chatDir Demo.damaged !! "ann@uni.edu__s1.json"
    = Some (Doc (JObj [("sessionId", JStr "s1");
                       ("sessionName", JStr "Library hours");
                       ("messages", JStr "archived")]))
  /\ exists w' doc,
       appendMessageToSessionFile Demo.chatty "ann@uni.edu" "s1" Demo.turn Demo.damaged
         = (Ok tt, w') /\
       chatDir w' !! "ann@uni.edu__s1.json" = Some (Doc doc) /\
       Js.prop doc "sessionName" = Some (JStr "When are fees due?") /\
       Js.prop doc "createdAt" = Some (JStr "2024-05-01T09:00:0Z").
Proof.
  split; [vm_compute; reflexivity|].
  eexists; eexists. split; [vm_compute; reflexivity|].
  split; vm_compute; try reflexivity. split; reflexivity.
Qed.

(** ** The handler: reaching the two modes *)

Lemma ask_known rt req w email question student :
  Spec.Known req w email question student ->
  ask rt req w =
    try_catch
      (if shouldDoCampusSearch (q_isCampusSearch req)
       then campusSearch rt email question (q_sessionId req) student
       else directGemini rt email question (q_sessionId req) student)
      (internalError rt) w.
Proof.
  intros [He Hq Hs]. unfold ask, try_catch, bind, readStudent.
  now rewrite He, Hq, Hs.
Qed.

Lemma length_zero_nil {A} (l : list A) :
  (List.length l =? 0)%nat = true <-> l = [].
Proof. destruct l; simpl; split; congruence. Qed.

(** C6, as amended.  A campus-mode request of a known student who has no
    accessible store is answered at once with the fixed text, no stores
    used and no session ([sessionId] is [null]); the world is left as it
    was: no classification, no retrieval, and nothing is written to a
    session transcript. *)
Theorem ask_no_stores rt req w email question student :
  Spec.Known req w email question student ->
  shouldDoCampusSearch (q_isCampusSearch req) = true ->
  accessibleStores student = [] ->
  ask rt req w =
    (Ok {| status := 200;
           body := JObj [("sessionId", JNull);
                         ("answer", JStr "No RAG stores available for your account.");
                         ("storesUsed", JArr []);
                         ("grounding", JArr []);
                         ("isCampusSearch", JBool true)] |},
     w).
Proof.
  intros Hk Hc Hs. rewrite (ask_known _ _ _ _ _ _ Hk), Hc.
  unfold campusSearch, try_catch. now rewrite Hs.
Qed.

Lemma ask_no_stores_witness :
  ask Demo.chatty (Demo.request "bob@uni.edu" None) Demo.world =
    (Ok {| status := 200;
           body := JObj [("sessionId", JNull);
                         ("answer", JStr "No RAG stores available for your account.");
                         ("storesUsed", JArr []);
                         ("grounding", JArr []);
                         ("isCampusSearch", JBool true)] |},
     Demo.world).
Proof.
  apply (ask_no_stores Demo.chatty (Demo.request "bob@uni.edu" None) Demo.world
           "bob@uni.edu" "What are library hours and my fee balance?" Demo.bob).
  - split; vm_compute; reflexivity.
  - reflexivity.
  - reflexivity.
Defined.

(** C6 fails as stated: after the fixed answer no session file exists, so
    the turn was not recorded. *)
Lemma ask_no_stores_counterexample :
  exists resp w',
    ask Demo.chatty (Demo.request "bob@uni.edu" None) Demo.world = (Ok resp, w') /\
    Js.prop (body resp) "answer"
      = Some (JStr "No RAG stores available for your account.") /\
    Js.prop (body resp) "sessionId" = Some JNull /\
    chatDir w' = ∅.
Proof.
  eexists; eexists. split; [vm_compute; reflexivity|].
  repeat split.
Qed.

(** ** The direct path *)




Example expectedStatus_quota :
  Spec.expectedStatus "You exceeded your current quota" = 429.
Proof. reflexivity. Qed.

Example expectedStatus_network :
  Spec.expectedStatus "fetch failed: network unreachable" = 503.
Proof. reflexivity. Qed.

Example expectedStatus_model :
  Spec.expectedStatus "models/gemini-pro is not found" = 400.
Proof. reflexivity. Qed.

Example expectedStatus_other :
  Spec.expectedStatus "socket hang up" = 500.
Proof. reflexivity. Qed.

(** ** Detached tasks *)

Lemma bind_ret_tt (m : M unit) w : (m ;;; ret tt) w = m w.
Proof. unfold bind, ret. destruct (m w) as [[[]|e] w']; reflexivity. Qed.

Lemma bind_ext {A B} (m : M A) (k1 k2 : A -> M B) w :
  (forall a w', k1 a w' = k2 a w') -> bind m k1 w = bind m k2 w.
Proof. intros H. unfold bind. destruct (m w) as [[a|e] w']; auto. Qed.

Lemma getProp_value c k : c <> JNull -> getProp c k = ret (Js.prop c k).
Proof. destruct c; intros H; try reflexivity. contradiction. Qed.




Lemma try_catch_thrown {A} (m : M A) h w e w1 :
  m w = (Thrown e, w1) -> try_catch m h w = h e w1.
Proof. unfold try_catch. now intros ->. Qed.

Lemma background_ok (m : M unit) w w' : m w = (Ok tt, w') -> background m w = (Ok tt, w').
Proof. unfold background, try_catch. now intros ->. Qed.

Lemma background_total (m : M unit) w : exists w', background m w = (Ok tt, w').
Proof.
  unfold background, try_catch, ret. destruct (m w) as [[[]|e] w']; eauto.
Qed.




(** *** Nothing that is written calls a service *)

Lemma quiet_ret {A} (a : A) : View.quiet (ret a).
Proof. intros w. reflexivity. Qed.

Lemma quiet_throw {A} msg : View.quiet (@throw A msg).
Proof. intros w. reflexivity. Qed.

Lemma quiet_bind {A B} (m : M A) (k : A -> M B) :
  View.quiet m -> (forall a, View.quiet (k a)) -> View.quiet (bind m k).
Proof.
  intros Hm Hk w. unfold bind. specialize (Hm w).
  destruct (m w) as [[a|e] w1]; simpl in *; [|exact Hm].
  now rewrite Hk.
Qed.

Lemma quiet_try_catch {A} (m : M A) h :
  View.quiet m -> (forall e, View.quiet (h e)) -> View.quiet (try_catch m h).
Proof.
  intros Hm Hh w. unfold try_catch. specialize (Hm w).
  destruct (m w) as [[a|e] w1]; simpl in *; [exact Hm|].
  now rewrite Hh.
Qed.

Lemma quiet_background (m : M unit) : View.quiet m -> View.quiet (background m).
Proof. intros H. apply quiet_try_catch; [exact H|]. intros e. apply quiet_ret. Qed.

Lemma quiet_now rt : View.quiet (now rt).
Proof. intros w. reflexivity. Qed.

Lemma quiet_readChat rt file : View.quiet (readChat rt file).
Proof.
  intros w. unfold readChat. destruct (fsRead rt file w) as [e|[|v]]; reflexivity.
Qed.

Lemma quiet_writeChat rt file v : View.quiet (writeChat rt file v).
Proof.
  intros w. unfold writeChat, fsWrite.
  destruct (target file w) as [name|name| |]; try reflexivity.
  - destruct (canWrite (chatDir w) name); reflexivity.
  - destruct (canWrite (providerLogsDir w) name); reflexivity.
  - destruct (strayWrite rt w file v); reflexivity.
Qed.

Lemma quiet_pushMessage session messageObj : View.quiet (pushMessage session messageObj).
Proof.
  destruct session as [|b|n|s|l|fs]; try apply quiet_throw; try apply quiet_ret.
  unfold pushMessage.
  destruct (Js.or (Js.assoc "messages" fs) (JArr []));
    try apply quiet_throw; apply quiet_ret.
Qed.

Lemma quiet_appendMessage rt email sid msg :
  View.quiet (appendMessageToSessionFile rt email sid msg).
Proof.
  unfold appendMessageToSessionFile. apply quiet_try_catch.
  - apply quiet_bind; [apply quiet_readChat|intros session].
    apply quiet_bind; [apply quiet_pushMessage|intros updated].
    apply quiet_bind; [apply quiet_now|intros updatedAt]. apply quiet_writeChat.
  - intros _. apply quiet_bind; [apply quiet_now|intros createdAt].
    apply quiet_bind; [apply quiet_now|intros updatedAt]. apply quiet_writeChat.
Qed.

Lemma quiet_createIfNew rt isNew email sid name :
  View.quiet (createIfNew rt isNew email sid name).
Proof.
  destruct isNew; [|apply quiet_ret]. unfold createIfNew, createSessionFile.
  apply quiet_bind; [apply quiet_now|intros createdAt].
  apply quiet_bind; [apply quiet_now|intros updatedAt]. apply quiet_writeChat.
Qed.



(** The task every campus path detaches: the session file of a new
    session, the message, then whatever [k] logs. *)
Lemma quiet_record rt isNew email sid name (mk : string -> list (string * json))
  (k : M unit) :
  View.quiet k ->
  View.quiet
    (background
       (createIfNew rt isNew email sid name ;;;
        stamp <- now rt ;;
        appendMessageToSessionFile rt email sid (mk stamp) ;;; k)).
Proof.
  intros Hk. apply quiet_background.
  apply quiet_bind; [apply quiet_createIfNew|intros _].
  apply quiet_bind; [apply quiet_now|intros stamp].
  apply quiet_bind; [apply quiet_appendMessage|intros _; exact Hk].
Qed.

(** ** Campus search: what a turn writes *)

Lemma createIfNew_run rt isNew email sid name w :
  View.writable w (getSessionFile email sid) ->
  createIfNew rt isNew email sid name w =
    (Ok tt,
     if isNew
     then with_chat
            (insert (getSessionFile email sid)
               (Doc (sessionData sid name email (clock rt (ticks w))
                       (clock rt (S (ticks w))) [])))
            (tick (tick w))
     else w).
Proof.
  intros Hw. destruct isNew; [|reflexivity].
  assert (Hw2 : View.writable (tick (tick w)) (getSessionFile email sid)) by exact Hw.
  unfold createIfNew, createSessionFile, bind, now. simpl.
  now rewrite (writeChat_writable rt _ _ _ Hw2).
Qed.

Lemma last_messagesOf_set fs l m stamp :
  last (Spec.messagesOf
          (JObj (Js.assoc_set "updatedAt" stamp
                   (Js.assoc_set "messages" (JArr (l ++ [m])) fs)))) = Some m.
Proof.
  unfold Spec.messagesOf. rewrite assoc_set_other by discriminate.
  rewrite assoc_set_same. apply last_snoc.
Qed.

(** On a path the router can write the append completes; it changes
    that one file of the chat directory and nothing else, and unless
    the file held a bare array the message is the last one of the
    stored session. *)
Lemma appendMessage_lands rt email sid msg w :
  View.writable w (getSessionFile email sid) ->
  exists w',
    appendMessageToSessionFile rt email sid msg w = (Ok tt, w') /\
    trace w' = trace w /\
    providerLogsDir w' = providerLogsDir w /\
    outside w' = outside w /\
    (forall other, other <> getSessionFile email sid ->
                   chatDir w' !! other = chatDir w !! other) /\
    (Spec.bareArray (chatDir w !! getSessionFile email sid) = false ->
     exists doc,
       chatDir w' !! getSessionFile email sid = Some (Doc doc) /\
       last (Spec.messagesOf doc) = Some (JObj msg)).
Proof.
  intros Hw.
  destruct (Spec.appendable (chatDir w !! getSessionFile email sid))
    as [[fs l]|] eqn:Happ.
  - rewrite (appendMessage_appends rt email sid msg w fs l Happ).
    eexists. repeat split.
    + intros other Hne. rewrite chat_insert_other by assumption. reflexivity.
    + intros _. eexists. split; [apply chat_insert_same|].
      apply last_messagesOf_set.
  - destruct (Spec.bareArray (chatDir w !! getSessionFile email sid)) eqn:Hb.
    + destruct (appendMessage_bare_array rt email sid msg w Hb) as (l & _ & E).
      rewrite E. eexists. repeat split; [|discriminate].
      intros other Hne. rewrite chat_insert_other by assumption. reflexivity.
    + rewrite (appendMessage_starts_over rt email sid msg w Hw Happ Hb).
      eexists. repeat split.
      * intros other Hne. rewrite chat_insert_other by assumption. reflexivity.
      * intros _. eexists. split; [apply chat_insert_same|]. reflexivity.
Qed.

Lemma bareArray_created rt isNew email sid name w :
  View.writable w (getSessionFile email sid) ->
  isNew = true \/ Spec.bareArray (chatDir w !! getSessionFile email sid) = false ->
  Spec.bareArray
    (chatDir (tick (snd (createIfNew rt isNew email sid name w)))
       !! getSessionFile email sid) = false.
Proof.
  intros Hw. rewrite createIfNew_run by exact Hw. destruct isNew; simpl.
  - intros _. now rewrite lookup_insert_eq.
  - intros [H|H]; [discriminate|exact H].
Qed.

(** The three steps every campus path takes to record its turn: create
    the session file when the session is new, read the clock, append. *)
Lemma record_turn rt isNew email sid name (mk : string -> list (string * json))
  (k : M unit) w :
  View.writable w (getSessionFile email sid) ->
  exists stamp w4,
    (createIfNew rt isNew email sid name ;;;
     stamp <- now rt ;;
     appendMessageToSessionFile rt email sid (mk stamp) ;;; k) w = k w4 /\
    trace w4 = trace w /\
    providerLogsDir w4 = providerLogsDir w /\
    outside w4 = outside w /\
    (forall other, other <> getSessionFile email sid ->
                   chatDir w4 !! other = chatDir w !! other) /\
    (isNew = true \/ Spec.bareArray (chatDir w !! getSessionFile email sid) = false ->
     exists doc,
       chatDir w4 !! getSessionFile email sid = Some (Doc doc) /\
       last (Spec.messagesOf doc) = Some (JObj (mk stamp))).
Proof.
  intros Hw.
  pose (w1 := snd (createIfNew rt isNew email sid name w)).
  pose (stamp := clock rt (ticks w1)).
  assert (Hw1 : View.writable (tick w1) (getSessionFile email sid)).
  { unfold w1. rewrite createIfNew_run by exact Hw.
    destruct isNew; [|exact Hw].
    apply (writable_written (tick (tick (tick w)))). exact Hw. }
  destruct (appendMessage_lands rt email sid (mk stamp) (tick w1) Hw1)
    as (w4 & E & Ht & Hp & Ho & Hf & Hl).
  exists stamp, w4.
  split; [|split; [|split; [|split; [|split]]]].
  - unfold bind at 1. rewrite createIfNew_run by exact Hw. fold w1.
    replace (if isNew then _ else w) with w1
      by (unfold w1; now rewrite createIfNew_run).
    unfold bind at 1; unfold now at 1. fold stamp. unfold bind. now rewrite E.
  - rewrite Ht. unfold w1. rewrite createIfNew_run by exact Hw. now destruct isNew.
  - rewrite Hp. unfold w1. rewrite createIfNew_run by exact Hw. now destruct isNew.
  - rewrite Ho. unfold w1. rewrite createIfNew_run by exact Hw. now destruct isNew.
  - intros other Hne. rewrite (Hf other Hne). unfold w1.
    rewrite createIfNew_run by exact Hw. destruct isNew; [|reflexivity].
    simpl. now rewrite lookup_insert_ne.
  - intros H. apply Hl. unfold w1. now apply bareArray_created.
Qed.

Lemma campus_turn_unfold rt req w email question student isNew sid c w2 :
  Spec.CampusTurn rt req w email question student isNew sid c w2 ->
  ask rt req w =
    try_catch
      (answerFromClassification rt email question sid isNew
         (sessionNameFor isNew question) (accessibleStores student)
         (Spec.keyFor rt w student) c)
      (internalError rt) w2.
Proof.
  intros [Hk Hc Hs (w1 & Hr & Hcl)].
  rewrite (ask_known _ _ _ _ _ _ Hk), Hc.
  unfold campusSearch.
  destruct (List.length (List.map storeName (accessibleStores student)) =? 0)%nat eqn:Hl.
  { apply length_zero_nil in Hl. apply map_eq_nil in Hl. contradiction. }
  unfold try_catch, bind at 1, readUniversity.
  unfold bind at 1. rewrite Hr. unfold bind at 1.
  unfold Spec.keyFor in Hcl. now rewrite Hcl.
Qed.

Lemma resolveSession_frame rt sessionId w r w1 :
  resolveSession rt sessionId w = (r, w1) ->
  chatDir w1 = chatDir w /\ providerLogsDir w1 = providerLogsDir w /\
  trace w1 = trace w /\ outside w1 = outside w.
Proof.
  unfold resolveSession. destruct (Js.truthy_str sessionId).
  - intros [= <- <-]. auto.
  - unfold bind, mintSessionId, ret. intros [= <- <-]. auto.
Qed.

Lemma campus_turn_frame rt req w email question student isNew sid c w2 :
  Spec.CampusTurn rt req w email question student isNew sid c w2 ->
  chatDir w2 = chatDir w /\ providerLogsDir w2 = providerLogsDir w /\
  (forall e, In e (trace w2) -> In e (trace w) \/ exists k m a, e = EvGenerate k m a).
Proof.
  intros [_ _ _ (w1 & Hr & Hcl)].
  destruct (resolveSession_frame _ _ _ _ _ Hr) as (Hc1 & Hp1 & Ht1 & _).
  destruct (classifyStores_cases rt (Spec.keyFor rt w student)
              (List.map storeName (accessibleStores student)) question w1)
    as (w' & E & _ & _ & Hc & Hp & _ & Ht).
  rewrite Hcl in E. injection E as _ <-.
  rewrite Hc, Hp, Hc1, Hp1. repeat split. intros e He.
  rewrite <- Ht1. now apply Ht.
Qed.




(** ** Campus search: the store loop *)




Section Loop.
Context (rt : Runtime) (key : option string) (splitQuestions : json)
        (question : string).

Local Abbreviation verdictAt := (Spec.rag_verdict rt key splitQuestions question).
Local Abbreviation eventOf := (Spec.rag_event rt key splitQuestions question).





Lemma NoneSignals_app before after : forall history,
  Spec.NoneSignals rt key splitQuestions question history before ->
  Spec.NoneSignals rt key splitQuestions question
    (history ++ List.map eventOf before) after ->
  Spec.NoneSignals rt key splitQuestions question history (before ++ after).
Proof.
  induction before as [|s rest IH]; intros history Hb Ha.
  - simpl in *. now rewrite app_nil_r in Ha.
  - inversion Hb as [|h s' rest' Hv Hrest]; subst.
    simpl. constructor; [exact Hv|]. apply IH; [exact Hrest|].
    simpl in Ha. now rewrite <- app_assoc.
Qed.

Lemma entries_app before after : forall history,
  Spec.entries rt key splitQuestions question history (before ++ after) =
    Spec.entries rt key splitQuestions question history before ++
    Spec.entries rt key splitQuestions question
      (history ++ List.map eventOf before) after.
Proof.
  induction before as [|s rest IH]; intros history.
  - simpl. now rewrite app_nil_r.
  - simpl. rewrite IH, <- !app_assoc. reflexivity.
Qed.

Lemma fragments_app before after : forall history,
  Spec.fragments rt key splitQuestions question history (before ++ after) =
    Spec.fragments rt key splitQuestions question history before ++
    Spec.fragments rt key splitQuestions question
      (history ++ List.map eventOf before) after.
Proof.
  induction before as [|s rest IH]; intros history.
  - simpl. now rewrite app_nil_r.
  - simpl. rewrite IH, <- !app_assoc. reflexivity.
Qed.







End Loop.

(** ** Campus search: from the loop to the response *)











(** A single selected store: its answer comes back without a label. *)
Example ask_single_store :
  exists resp w',
    ask Demo.focused (Demo.request "ann@uni.edu" None) Demo.world = (Ok resp, w') /\
    Js.prop (body resp) "answer" = Some (JStr "Open 9am to 5pm.").
Proof. eexists; eexists. split; vm_compute; reflexivity. Qed.








(** * Further properties *)

(** ** File names *)

Lemma is_safe_underscore : Str.is_safe "_"%char = true.
Proof. reflexivity. Qed.

Lemma sanitize_without c s :
  Str.is_safe c = false -> Path.hasChar c (Str.sanitize s) = false.
Proof.
  intros Hc. induction s as [|a s IH]; [reflexivity|].
  cbn [Str.sanitize Path.hasChar]. rewrite IH, orb_false_r.
  destruct (Str.is_safe a) eqn:Ha.
  - destruct (Ascii.eqb_spec c a) as [->|]; [congruence|reflexivity].
  - destruct (Ascii.eqb_spec c "_"%char) as [->|]; [discriminate|reflexivity].
Qed.

(** X1.  A sanitised email has the length of the email and only safe
    characters (letters, digits, [@], [.], [_], [-]), hence no path
    separator and no NUL; sanitising is the identity on a string of safe
    characters, hence idempotent. *)
Theorem sanitize_safe s :
  String.length (Str.sanitize s) = String.length s /\
  Forall (fun c => Str.is_safe c = true) (list_ascii_of_string (Str.sanitize s)) /\
  Path.hasChar "/" (Str.sanitize s) = false /\
  Path.hasChar "000" (Str.sanitize s) = false /\
  (Forall (fun c => Str.is_safe c = true) (list_ascii_of_string s) ->
   Str.sanitize s = s) /\
  Str.sanitize (Str.sanitize s) = Str.sanitize s.
Proof.
  assert (Hfix : forall t,
             Forall (fun c => Str.is_safe c = true) (list_ascii_of_string t) ->
             Str.sanitize t = t).
  { induction t as [|c t IH]; simpl; [reflexivity|].
    intros H. inversion H as [|? ? Hc Ht]; subst. now rewrite Hc, IH. }
  assert (Hsafe : Forall (fun c => Str.is_safe c = true)
                    (list_ascii_of_string (Str.sanitize s))).
  { induction s as [|c s IH]; simpl; constructor; [|exact IH].
    destruct (Str.is_safe c) eqn:E; [exact E|reflexivity]. }
  split; [|split; [exact Hsafe|]].
  { clear. induction s as [|c s IH]; simpl; congruence. }
  split; [now apply sanitize_without|].
  split; [now apply sanitize_without|].
  split; [apply Hfix|now apply Hfix].
Qed.

Lemma sanitize_safe_witness : Str.sanitize "ann@uni.edu" = "ann@uni.edu".
Proof.
  destruct (sanitize_safe "ann@uni.edu") as (_ & _ & _ & _ & H & _).
  apply H. repeat constructor.
Defined.

Lemma prefix_app_same a b c :
  String.prefix (a +:+ b) (a +:+ c) = String.prefix b c.
Proof.
  induction a as [|x a IH]; [reflexivity|].
  change (String.prefix (String x (a +:+ b)) (String x (a +:+ c)) = String.prefix b c).
  simpl. destruct (ascii_dec x x); [exact IH|contradiction].
Qed.

Lemma hasChar_app c a b :
  Path.hasChar c (a +:+ b) = Path.hasChar c a || Path.hasChar c b.
Proof.
  induction a as [|x a IH]; [reflexivity|].
  change (Path.hasChar c (String x (a +:+ b))
          = Path.hasChar c (String x a) || Path.hasChar c b).
  cbn [Path.hasChar]. now rewrite IH, orb_assoc.
Qed.

Lemma length_app_str a b :
  String.length (a +:+ b) = String.length a + String.length b.
Proof.
  induction a as [|x a IH]; [reflexivity|].
  change (String.length (String x (a +:+ b)) = S (String.length a) + String.length b).
  simpl. now rewrite IH.
Qed.

(** The file of a session id without a path separator is named after
    the address and the id. *)
Lemma getSessionFile_oneSegment email sessionId :
  View.oneSegment sessionId = true ->
  getSessionFile email sessionId =
    Str.sanitize email +:+ "__" +:+ sessionId +:+ ".json".
Proof.
  unfold View.oneSegment. rewrite negb_true_iff. intros Hs.
  unfold getSessionFile, Path.join.
  set (name := Str.sanitize email +:+ "__" +:+ sessionId +:+ ".json").
  assert (Hlen : 3 <= String.length name).
  { unfold name. rewrite !length_app_str. simpl. lia. }
  rewrite normalize_one.
  - reflexivity.
  - unfold name. rewrite !hasChar_app, Hs.
    rewrite (sanitize_without "/" email) by reflexivity. reflexivity.
  - intros E. rewrite E in Hlen. simpl in Hlen. lia.
  - intros E. rewrite E in Hlen. simpl in Hlen. lia.
  - intros E. rewrite E in Hlen. simpl in Hlen. lia.
Qed.

Lemma sessionFile_prefix email sessionId :
  View.oneSegment sessionId = true ->
  String.prefix (Str.sanitize email +:+ "__") (getSessionFile email sessionId) = true.
Proof.
  intros H. rewrite (getSessionFile_oneSegment email sessionId H).
  rewrite prefix_app_same.
  change (String.prefix ("__" +:+ "") ("__" +:+ (sessionId +:+ ".json")) = true).
  rewrite prefix_app_same. now destruct (sessionId +:+ ".json").
Qed.

(** ** The routes *)

Lemma summary_shadowed path :
  matchPath [Lit "session"; Param; Param] path = None ->
  matchPath [Lit "session"; Lit "summary"; Param] path = None.
Proof.
  destruct path as [|a [|b [|c [|d rest]]]]; cbn [matchPath]; try reflexivity.
  - destruct (String.eqb "session" (lower a)); reflexivity.
  - destruct (String.eqb "session" (lower a)); [|reflexivity].
    destruct (String.eqb "summary" (lower b)); reflexivity.
  - destruct (String.eqb "session" (lower a)); [|reflexivity].
    destruct (String.eqb_spec b "") as [->|_]; [reflexivity|].
    destruct (String.eqb c ""); [|discriminate].
    destruct (String.eqb "summary" (lower b)); reflexivity.
  - destruct (String.eqb "session" (lower a)); [|reflexivity].
    destruct (String.eqb "summary" (lower b)); [|reflexivity].
    destruct (String.eqb c ""); reflexivity.
Qed.

(** X2.  No path reaches the session-summary handler: the route
    [/session/:email/:sessionId], registered before it, matches every
    path that [/session/summary/:email] matches, so a request for the
    summary of [email] is served as the session [email] of the user
    [summary]. *)
Theorem summary_unreachable path :
  fst <$> dispatch path <> Some HSummary /\
  (forall email, email <> "" ->
     dispatch ["session"; "summary"; email] = Some (HSession, ["summary"; email])).
Proof.
  split.
  - unfold dispatch, routes, firstMatch.
    repeat match goal with
           | |- context [match matchPath ?p path with _ => _ end] =>
               let E := fresh "E" in
               destruct (matchPath p path) eqn:E; [discriminate|]
           end.
    match goal with
    | H : matchPath [Lit "session"; Param; Param] path = None |- _ =>
        apply summary_shadowed in H; rewrite H
    end.
    discriminate.
  - intros email Hne. unfold dispatch, routes, firstMatch.
    cbn [matchPath].
    change (String.eqb "ask" (lower "session")) with false.
    change (String.eqb "sessions" (lower "session")) with false.
    change (String.eqb "session" (lower "session")) with true.
    change (String.eqb "summary" "") with false.
    cbv iota.
    destruct (String.eqb_spec email ""); [contradiction|reflexivity].
Qed.

Lemma summary_unreachable_witness :
  dispatch ["session"; "summary"; "ann@uni.edu"]
  = Some (HSession, ["summary"; "ann@uni.edu"]).
Proof.
  destruct (summary_unreachable []) as (_ & H). apply H. discriminate.
Defined.

(** ** Reading and deleting sessions *)

Lemma fsRead_writable rt w file :
  View.writable w file -> fsRead rt file w = lookupFile (chatDir w) file.
Proof. intros H. unfold fsRead. now rewrite (target_writable w file H). Qed.

(** A session id without a path separator names a file of the chat
    directory, unless it holds a NUL. *)
Lemma target_oneSegment email sessionId w :
  View.oneSegment sessionId = true ->
  target (getSessionFile email sessionId) w =
    match chatDir w !! getSessionFile email sessionId with
    | Some _ => InChat (getSessionFile email sessionId)
    | None =>
        if Path.hasChar "000" (getSessionFile email sessionId) then Refused
        else InChat (getSessionFile email sessionId)
    end.
Proof.
  intros H. unfold target.
  destruct (chatDir w !! getSessionFile email sessionId); [reflexivity|].
  destruct (Path.hasChar "000" (getSessionFile email sessionId)); [reflexivity|].
  rewrite (getSessionFile_oneSegment email sessionId H).
  set (name := Str.sanitize email +:+ "__" +:+ sessionId +:+ ".json").
  assert (Hlen : 3 <= String.length name).
  { unfold name. rewrite !length_app_str. simpl. lia. }
  unfold Path.place. rewrite normalize_one; [reflexivity| | | |].
  - unfold name. rewrite !hasChar_app.
    rewrite (sanitize_without "/" email) by reflexivity.
    unfold View.oneSegment in H. apply negb_true_iff in H. now rewrite H.
  - intros E. rewrite E in Hlen. simpl in Hlen. lia.
  - intros E. rewrite E in Hlen. simpl in Hlen. lia.
  - intros E. rewrite E in Hlen. simpl in Hlen. lia.
Qed.

Lemma getSession_read rt email sessionId w :
  getSession rt email sessionId w =
    (Ok (match fsRead rt (getSessionFile email sessionId) w with
         | inr (Doc JNull) | inr Unparsable | inl _ => sessionNotFound
         | inr (Doc data) => {| status := 200; body := data |}
         end), w).
Proof.
  unfold getSession, try_catch, bind, readChat.
  destruct (fsRead rt (getSessionFile email sessionId) w) as [e|[|v]];
    try reflexivity.
  destruct v; reflexivity.
Qed.

Lemma getSession_run rt email sessionId w :
  View.writable w (getSessionFile email sessionId) ->
  getSession rt email sessionId w =
    (Ok (match chatDir w !! getSessionFile email sessionId with
         | Some (Doc JNull) | Some Unparsable | None => sessionNotFound
         | Some (Doc data) => {| status := 200; body := data |}
         end), w).
Proof.
  intros H. rewrite getSession_read, (fsRead_writable rt w _ H). unfold lookupFile.
  destruct (chatDir w !! getSessionFile email sessionId) as [[|v]|]; reflexivity.
Qed.

Lemma getSession_absent rt email sessionId w :
  View.oneSegment sessionId = true ->
  chatDir w !! getSessionFile email sessionId = None ->
  getSession rt email sessionId w = (Ok sessionNotFound, w).
Proof.
  intros H Hd. rewrite getSession_read. unfold fsRead.
  rewrite (target_oneSegment email sessionId w H), Hd.
  destruct (Path.hasChar "000" (getSessionFile email sessionId)); [reflexivity|].
  unfold lookupFile. now rewrite Hd.
Qed.

(** X3.  On a session path the router can write, appending a message
    and then reading the session gives status 200 and a document whose
    last message is the one appended, whatever the file held before,
    except a bare JSON array. *)
Theorem getSession_after_append rt email sessionId messageObj w :
  View.writable w (getSessionFile email sessionId) ->
  Spec.bareArray (chatDir w !! getSessionFile email sessionId) = false ->
  exists w' doc,
    (appendMessageToSessionFile rt email sessionId messageObj ;;;
     getSession rt email sessionId) w
      = (Ok {| status := 200; body := doc |}, w') /\
    last (Spec.messagesOf doc) = Some (JObj messageObj).
Proof.
  intros Hw Hb.
  destruct (appendMessage_lands rt email sessionId messageObj w Hw)
    as (w' & E & _ & _ & _ & _ & Hl).
  destruct (Hl Hb) as (doc & Hd & Hlast).
  exists w', doc. split; [|exact Hlast].
  unfold bind. rewrite E, (getSession_run rt email sessionId w'), Hd.
  - destruct doc; try reflexivity. discriminate.
  - eapply writable_present. exact Hd.
Qed.

Lemma getSession_after_append_witness :
  exists w' doc,
    (appendMessageToSessionFile Demo.chatty "ann@uni.edu" "s2" Cases.second ;;;
     getSession Demo.chatty "ann@uni.edu" "s2") Cases.shelf
      = (Ok {| status := 200; body := doc |}, w') /\
    last (Spec.messagesOf doc) = Some (JObj Cases.second).
Proof.
  apply (getSession_after_append Demo.chatty "ann@uni.edu" "s2" Cases.second
           Cases.shelf).
  - right. vm_compute. reflexivity.
  - vm_compute. reflexivity.
Defined.

(** X4.  On a file that holds a bare JSON array the append completes
    but stores nothing: the array is written back as it was, so the
    message is lost. *)
Theorem appendMessage_lost_on_array rt email sessionId messageObj w l :
  chatDir w !! getSessionFile email sessionId = Some (Doc (JArr l)) ->
  exists w',
    appendMessageToSessionFile rt email sessionId messageObj w = (Ok tt, w') /\
    chatDir w' = chatDir w /\
    fst (getSession rt email sessionId w') = Ok {| status := 200; body := JArr l |}.
Proof.
  intros H.
  destruct (appendMessage_bare_array rt email sessionId messageObj w) as (l' & H' & E).
  { now rewrite H. }
  rewrite H in H'. injection H' as <-.
  eexists. split; [exact E|]. split.
  - simpl. now apply insert_id.
  - rewrite getSession_run.
    + simpl. now rewrite lookup_insert_eq.
    + eapply writable_present. apply chat_insert_same.
Qed.

Lemma appendMessage_lost_on_array_witness :
  exists w',
    appendMessageToSessionFile Demo.chatty "bob@uni.edu" "s1" Cases.second Cases.shelf
      = (Ok tt, w') /\
    chatDir w' = chatDir Cases.shelf.
Proof.
  destruct (appendMessage_lost_on_array Demo.chatty "bob@uni.edu" "s1" Cases.second
              Cases.shelf []) as (w' & E & H & _).
  - vm_compute. reflexivity.
  - exists w'. split; assumption.
Defined.

Lemma deleteSession_run rt email sessionId w :
  View.writable w (getSessionFile email sessionId) ->
  deleteSession rt email sessionId w =
    match chatDir w !! getSessionFile email sessionId with
    | Some _ =>
        (Ok (json_res [("message", JStr "Session deleted successfully");
                       ("email", JStr email);
                       ("sessionId", JStr sessionId)]),
         with_chat (delete (getSessionFile email sessionId)) w)
    | None => (Ok (deleteFailed (absent (getSessionFile email sessionId))), w)
    end.
Proof.
  intros H. unfold deleteSession, fsAccess, fsUnlink.
  rewrite (target_writable w _ H). unfold lookupFile.
  destruct (chatDir w !! getSessionFile email sessionId); reflexivity.
Qed.

(** X5.  Deleting a session whose path is a plain file name answers
    200 when its file exists and 404 when it does not; afterwards the
    file is gone, every other session file and the provider logs are as
    before, and reading the session answers 404.  Deleting a session
    whose id has no path separator but which the file system refuses (a
    NUL in it, or a name longer than [NAME_MAX] that names no file)
    answers 500 and changes nothing. *)
Theorem deleteSession_removes rt email sessionId w :
  (Path.plainName (getSessionFile email sessionId) = true ->
   exists resp w',
     deleteSession rt email sessionId w = (Ok resp, w') /\
     status resp =
       match chatDir w !! getSessionFile email sessionId with
       | Some _ => 200
       | None => 404
       end /\
     chatDir w' !! getSessionFile email sessionId = None /\
     (forall other, other <> getSessionFile email sessionId ->
                    chatDir w' !! other = chatDir w !! other) /\
     providerLogsDir w' = providerLogsDir w /\
     getSession rt email sessionId w' = (Ok sessionNotFound, w')) /\
  (View.oneSegment sessionId = true ->
   chatDir w !! getSessionFile email sessionId = None ->
   Path.hasChar "000" sessionId = true \/
   Path.fits (getSessionFile email sessionId) = false ->
   deleteSession rt email sessionId w =
     (Ok (status_json 500 [("error", JStr "Internal server error")]), w)).
Proof.
  split.
  - intros Hp.
    assert (Hw : forall w0, View.writable w0 (getSessionFile email sessionId))
      by (intros w0; now right).
    rewrite (deleteSession_run rt email sessionId w (Hw w)).
    destruct (chatDir w !! getSessionFile email sessionId) eqn:E.
    + eexists; eexists. split; [reflexivity|]. split; [reflexivity|].
      assert (Hgone : chatDir (with_chat (delete (getSessionFile email sessionId)) w)
                        !! getSessionFile email sessionId = None)
        by (simpl; apply lookup_delete_eq).
      split; [exact Hgone|]. split; [|split; [reflexivity|]].
      * intros other Hne. simpl. rewrite lookup_delete_ne; congruence.
      * rewrite getSession_run by apply Hw. now rewrite Hgone.
    + unfold absent.
      apply plainName_parts in Hp as (_ & _ & _ & _ & _ & ->).
      exists sessionNotFound, w. split; [reflexivity|]. split; [reflexivity|].
      split; [exact E|]. split; [reflexivity|]. split; [reflexivity|].
      rewrite getSession_run by apply Hw. now rewrite E.
  - intros Hone Habs Hbad. unfold deleteSession, fsAccess.
    rewrite (target_oneSegment email sessionId w Hone), Habs.
    destruct (Path.hasChar "000" (getSessionFile email sessionId)) eqn:Hnul;
      [reflexivity|].
    unfold lookupFile, absent. rewrite Habs.
    destruct Hbad as [Hn|Hf].
    + rewrite (getSessionFile_oneSegment email sessionId Hone) in Hnul.
      rewrite !hasChar_app, Hn in Hnul. rewrite orb_true_r in Hnul. discriminate.
    + rewrite Hf. reflexivity.
Qed.

Lemma unlinkEach_run rt prefix files : forall n w,
  NoDup files ->
  (forall f, f ∈ files -> is_Some (chatDir w !! f)) ->
  exists w',
    unlinkEach rt prefix files n w
      = (Ok (n + List.length (List.filter (String.prefix prefix) files)), w') /\
    (forall f,
        chatDir w' !! f =
          if String.prefix prefix f && bool_decide (f ∈ files)
          then None else chatDir w !! f) /\
    studentsDir w' = studentsDir w /\ universitiesDir w' = universitiesDir w /\
    providerLogsDir w' = providerLogsDir w /\ trace w' = trace w /\
    ticks w' = ticks w.
Proof.
  induction files as [|file rest IH]; intros n w Hnd Hin.
  - exists w. split; [simpl; unfold ret; f_equal; f_equal; lia|].
    split; [|repeat split].
    intros f. rewrite bool_decide_eq_false_2 by apply not_elem_of_nil.
    now rewrite andb_false_r.
  - apply NoDup_cons in Hnd as [Hnotin Hnd].
    simpl. destruct (String.prefix prefix file) eqn:Hp.
    + destruct (Hin file) as [d Hd]; [left|].
      unfold bind at 1, try_catch, bind at 1, unlinkChat, fsUnlink, target,
        lookupFile.
      rewrite Hd. cbv beta iota. rewrite Hd. cbv beta iota. unfold ret at 1.
      destruct (IH (S n) (with_chat (delete file) w) Hnd)
        as (w' & E & Hlook & Hs & Hu & Hl & Ht & Hk).
      { intros f Hf. simpl. rewrite lookup_delete_ne.
        - apply Hin. now right.
        - intros ->. contradiction. }
      exists w'. split; [rewrite E; simpl; f_equal; f_equal; lia|].
      split; [|repeat split; assumption].
      intros f. rewrite Hlook. simpl.
      destruct (decide (f = file)) as [->|Hne].
      * rewrite Hp, lookup_delete_eq.
        rewrite (bool_decide_eq_true_2 (file ∈ file :: rest)) by left.
        now destruct (bool_decide (file ∈ rest)).
      * rewrite lookup_delete_ne by congruence.
        destruct (String.prefix prefix f); [|reflexivity]. simpl.
        destruct (decide (f ∈ rest)) as [Hr|Hr].
        -- rewrite !bool_decide_eq_true_2; [reflexivity|now right|exact Hr].
        -- rewrite !bool_decide_eq_false_2; [reflexivity| |exact Hr].
           intros [?|?]%elem_of_cons; contradiction.
    + destruct (IH n w Hnd) as (w' & E & Hlook & Hrest).
      { intros f Hf. apply Hin. now right. }
      exists w'. split; [exact E|]. split; [|exact Hrest].
      intros f. rewrite Hlook.
      destruct (decide (f = file)) as [->|Hne].
      * rewrite Hp. reflexivity.
      * destruct (String.prefix prefix f); [|reflexivity]. simpl.
        destruct (decide (f ∈ rest)) as [Hr|Hr].
        -- rewrite !bool_decide_eq_true_2; [reflexivity|now right|exact Hr].
        -- rewrite !bool_decide_eq_false_2; [reflexivity| |exact Hr].
           intros [?|?]%elem_of_cons; contradiction.
Qed.

(** X6.  Deleting all sessions of an email removes exactly the stored
    files whose name starts with the sanitised email followed by two
    underscores, and reports how many there were; afterwards every
    session of that email whose id has no path separator reads as 404,
    files with another beginning are untouched, and the provider logs
    and the history are as before. *)
Theorem deleteAllSessions_removes rt email w :
  exists w',
    deleteAllSessions rt email w =
      (Ok (json_res
             [("message",
               JStr ("Deleted "
                     +:+ pretty (List.length
                                   (View.namesWith (Str.sanitize email +:+ "__") w))
                     +:+ " sessions for user"));
              ("email", JStr email);
              ("deletedCount",
               JNum (Z.of_nat (List.length
                                 (View.namesWith (Str.sanitize email +:+ "__") w))))]),
       w') /\
    (forall f,
        chatDir w' !! f =
          if String.prefix (Str.sanitize email +:+ "__") f then None
          else chatDir w !! f) /\
    (forall sessionId,
        View.oneSegment sessionId = true ->
        getSession rt email sessionId w' = (Ok sessionNotFound, w')) /\
    providerLogsDir w' = providerLogsDir w /\ trace w' = trace w.
Proof.
  unfold deleteAllSessions, bind at 1, readdirChat.
  destruct (unlinkEach_run rt (Str.sanitize email +:+ "__")
              (map_to_list (chatDir w)).*1 0 w)
    as (w' & E & Hlook & _ & _ & Hl & Ht & _).
  { apply NoDup_fst_map_to_list. }
  { intros f Hf. apply list_elem_of_fmap in Hf as [[k d] [-> Hk]].
    apply elem_of_map_to_list in Hk. simpl. eauto. }
  assert (Hlook' : forall f,
             chatDir w' !! f =
               if String.prefix (Str.sanitize email +:+ "__") f then None
               else chatDir w !! f).
  { intros f. rewrite Hlook.
    destruct (String.prefix (Str.sanitize email +:+ "__") f); [|reflexivity]. simpl.
    destruct (decide (f ∈ (map_to_list (chatDir w)).*1)) as [Hin|Hin].
    - now rewrite bool_decide_eq_true_2.
    - rewrite bool_decide_eq_false_2 by exact Hin.
      destruct (chatDir w !! f) as [d|] eqn:Hd; [|reflexivity].
      exfalso. apply Hin. apply list_elem_of_fmap. exists (f, d).
      split; [reflexivity|]. now apply elem_of_map_to_list. }
  exists w'. split; [|split; [exact Hlook'|split; [|split; assumption]]].
  - unfold bind. rewrite E. reflexivity.
  - intros sessionId Hone. apply getSession_absent; [exact Hone|].
    now rewrite Hlook', sessionFile_prefix.
Qed.

Lemma deleteAllSessions_witness :
  exists resp w',
    deleteAllSessions Demo.chatty "ann@uni.edu" Cases.shelf = (Ok resp, w') /\
    Js.prop (body resp) "deletedCount" = Some (JNum 2) /\
    chatDir w' !! "ann@uni.edu__s1.json" = None /\
    chatDir w' !! "bob@uni.edu__s1.json" = Some (Doc (JArr [])).
Proof.
  destruct (deleteAllSessions_removes Demo.chatty "ann@uni.edu" Cases.shelf)
    as (w' & E & Hlook & _).
  eexists; exists w'. split; [exact E|].
  split; [vm_compute; reflexivity|].
  split; rewrite Hlook; vm_compute; reflexivity.
Defined.

Lemma deleteSession_removes_witness :
  exists resp w',
    deleteSession Demo.chatty "ann@uni.edu" "s2" Cases.shelf = (Ok resp, w') /\
    status resp = 200 /\
    chatDir w' !! "ann@uni.edu__s1.json" = chatDir Cases.shelf !! "ann@uni.edu__s1.json".
Proof.
  destruct (deleteSession_removes Demo.chatty "ann@uni.edu" "s2" Cases.shelf)
    as (Hplain & _).
  destruct Hplain as (resp & w' & E & Hs & _ & Hother & _);
    [vm_compute; reflexivity|].
  exists resp, w'. split; [exact E|]. split.
  - rewrite Hs. vm_compute. reflexivity.
  - apply Hother. vm_compute. discriminate.
Defined.

(** ** Transcripts and provider logs as sequences *)

Lemma appendable_doc d fs l :
  Spec.appendable d = Some (fs, l) ->
  d = Some (Doc (JObj fs)) /\ Spec.messagesOf (JObj fs) = l.
Proof.
  unfold Spec.appendable, Spec.messagesOf, Js.or.
  destruct d as [[|v]|]; try discriminate.
  destruct v as [| | | | |fs0]; try discriminate.
  destruct (Js.assoc "messages" fs0) as [v|] eqn:Hm.
  - destruct v as [|b|n|s|l0|fs1]; simpl;
      repeat match goal with
             | |- context [if ?c then _ else _] => destruct c
             end;
      try discriminate; intros [= <- <-]; rewrite ?Hm; auto.
  - intros [= <- <-]. rewrite Hm. auto.
Qed.

Lemma appendable_after_append fs l m stamp :
  Spec.appendable
    (Some (Doc (JObj (Js.assoc_set "updatedAt" stamp
                        (Js.assoc_set "messages" (JArr (l ++ [m])) fs)))))
  = Some (Js.assoc_set "updatedAt" stamp
            (Js.assoc_set "messages" (JArr (l ++ [m])) fs), l ++ [m]).
Proof.
  unfold Spec.appendable. rewrite assoc_set_other by discriminate.
  now rewrite assoc_set_same.
Qed.

Lemma appendEach_run rt email sessionId msgs : forall w fs l,
  Spec.appendable (chatDir w !! getSessionFile email sessionId) = Some (fs, l) ->
  exists w' fs',
    View.appendEach rt email sessionId msgs w = (Ok tt, w') /\
    chatDir w' !! getSessionFile email sessionId = Some (Doc (JObj fs')) /\
    Spec.messagesOf (JObj fs') = l ++ List.map JObj msgs /\
    (forall k, k <> "messages" -> k <> "updatedAt" -> Js.assoc k fs' = Js.assoc k fs) /\
    (forall other, other <> getSessionFile email sessionId ->
                   chatDir w' !! other = chatDir w !! other).
Proof.
  induction msgs as [|m rest IH]; intros w fs l Happ.
  - destruct (appendable_doc _ _ _ Happ) as (Hd & Hm).
    exists w, fs. rewrite app_nil_r. repeat split; auto.
  - cbn [View.appendEach]. unfold bind.
    rewrite (appendMessage_appends rt email sessionId m w fs l Happ).
    match goal with
    | |- context [View.appendEach _ _ _ rest ?w1] =>
        destruct (IH w1 (Js.assoc_set "updatedAt" (JStr (clock rt (ticks w)))
                           (Js.assoc_set "messages" (JArr (l ++ [JObj m])) fs))
                    (l ++ [JObj m]))
          as (w' & fs' & E & Hd & Hm & Hk & Ho)
    end.
    { rewrite chat_insert_same. apply appendable_after_append. }
    exists w', fs'. split; [exact E|]. split; [exact Hd|].
    split; [rewrite Hm, <- app_assoc; reflexivity|]. split.
    + intros k H1 H2. rewrite Hk by assumption. now rewrite !assoc_set_other.
    + intros other Hne. rewrite Ho by assumption.
      rewrite chat_insert_other by assumption. reflexivity.
Qed.

(** X7.  On a session path the router can write, a session that is
    created and then appended to holds exactly the appended messages, in
    the order of the appends; its identifier, name, email and creation
    time are those of the creation, whatever the file held before;
    reading it back gives that document. *)
Theorem session_transcript rt email sessionId sessionName msgs w :
  View.writable w (getSessionFile email sessionId) ->
  exists w' doc,
    (createSessionFile rt email sessionId sessionName ;;;
     View.appendEach rt email sessionId msgs) w = (Ok tt, w') /\
    getSession rt email sessionId w' = (Ok {| status := 200; body := doc |}, w') /\
    Spec.messagesOf doc = List.map JObj msgs /\
    Js.prop doc "sessionId" = Some (JStr sessionId) /\
    Js.prop doc "sessionName" = JStr <$> sessionName /\
    Js.prop doc "email" = Some (JStr email) /\
    Js.prop doc "createdAt" = Some (JStr (clock rt (ticks w))).
Proof.
  intros Hw. unfold bind at 1.
  assert (Ec : createSessionFile rt email sessionId sessionName w =
               (Ok tt,
                with_chat
                  (insert (getSessionFile email sessionId)
                     (Doc (sessionData sessionId sessionName email (clock rt (ticks w))
                             (clock rt (S (ticks w))) [])))
                  (tick (tick w))))
    by exact (createIfNew_run rt true email sessionId sessionName w Hw).
  rewrite Ec.
  match goal with
  | |- context [View.appendEach _ _ _ msgs ?w1] =>
      destruct (appendEach_run rt email sessionId msgs w1
                  (match sessionData sessionId sessionName email (clock rt (ticks w))
                           (clock rt (S (ticks w))) [] with
                   | JObj fs => fs
                   | _ => []
                   end) [])
        as (w' & fs' & E & Hd & Hm & Hk & _)
  end.
  { rewrite chat_insert_same. now destruct sessionName. }
  exists w', (JObj fs'). split; [exact E|].
  split; [rewrite getSession_run by (eapply writable_present; exact Hd);
          rewrite Hd; reflexivity|].
  split; [exact Hm|].
  simpl Js.prop. rewrite !Hk by discriminate.
  destruct sessionName; repeat split.
Qed.

Lemma session_transcript_witness :
  exists w' doc,
    (createSessionFile Demo.chatty "ann@uni.edu" "s3" (Some "Fees") ;;;
     View.appendEach Demo.chatty "ann@uni.edu" "s3" [Demo.turn; Cases.second])
      Cases.shelf = (Ok tt, w') /\
    getSession Demo.chatty "ann@uni.edu" "s3" w'
      = (Ok {| status := 200; body := doc |}, w') /\
    Spec.messagesOf doc = [JObj Demo.turn; JObj Cases.second].
Proof.
  destruct (session_transcript Demo.chatty "ann@uni.edu" "s3" (Some "Fees")
              [Demo.turn; Cases.second] Cases.shelf)
    as (w' & doc & E & Hg & Hm & _).
  - right. vm_compute. reflexivity.
  - exists w', doc. split; [exact E|]. split; [exact Hg|exact Hm].
Defined.





(** ** The classifier's effects *)



(** ** The handler: hard stops *)

(** X10.  A request without an email or without a question is answered
    400, and a request of an unknown student 404; in both cases no
    service is called and nothing is written. *)
Theorem ask_hard_stops rt req w :
  (Js.truthy_str (q_email req) = None \/ Js.truthy_str (q_question req) = None ->
   ask rt req w =
     (Ok (status_json 400 [("error", JStr "email & question required")]), w)) /\
  (forall email question,
      Js.truthy_str (q_email req) = Some email ->
      Js.truthy_str (q_question req) = Some question ->
      studentsDir w !! (Str.sanitize email +:+ ".json") = None ->
      ask rt req w = (Ok (status_json 404 [("error", JStr "Student not found")]), w)).
Proof.
  split.
  - intros [H|H]; unfold ask, try_catch; rewrite H;
      [|destruct (Js.truthy_str (q_email req))]; reflexivity.
  - intros email question He Hq Hs.
    unfold ask, try_catch, bind, readStudent. now rewrite He, Hq, Hs.
Qed.

Lemma ask_hard_stops_witness :
  ask Demo.helpful
    {| q_email := Some "ann@uni.edu"; q_question := Some "";
       q_sessionId := None; q_isCampusSearch := None |} Demo.world
  = (Ok (status_json 400 [("error", JStr "email & question required")]), Demo.world)
  /\ ask Demo.helpful (Demo.request "eve@uni.edu" None) Demo.world
     = (Ok (status_json 404 [("error", JStr "Student not found")]), Demo.world).
Proof.
  split.
  - apply (ask_hard_stops Demo.helpful). right. reflexivity.
  - apply (proj2 (ask_hard_stops Demo.helpful (Demo.request "eve@uni.edu" None)
                    Demo.world)
             "eve@uni.edu" "What are library hours and my fee balance?");
      vm_compute; reflexivity.
Defined.

(** X11.  In direct mode, when neither the university nor the
    environment gives a key, or when no model name of the list is
    accepted, the answer is 400 (the latter with the list of names
    tried); the model is not called and nothing is written. *)
Theorem ask_direct_unconfigured rt req w email question student :
  Spec.Known req w email question student ->
  shouldDoCampusSearch (q_isCampusSearch req) = false ->
  (Spec.keyFor rt w student = None ->
   ask rt req w =
     (Ok (status_json 400
            [("error", JStr "No API key available for Gemini call");
             ("details",
              JStr "Check university API key or set GEMINI_API_KEY environment variable")]),
      w)) /\
  (forall key,
      Spec.keyFor rt w student = Some key ->
      pickModel rt = None ->
      ask rt req w =
        (Ok (status_json 400
               [("error", JStr "No compatible Gemini model found");
                ("availableModels",
                 JArr [JStr "gemini-1.5-flash"; JStr "gemini-pro";
                       JStr "models/gemini-1.5-flash"])]),
         w)).
Proof.
  intros Hk Hc. rewrite (ask_known _ _ _ _ _ _ Hk), Hc.
  unfold directGemini, try_catch, bind, readUniversity, Spec.keyFor. split.
  - intros ->. reflexivity.
  - intros key -> ->. reflexivity.
Qed.

Lemma ask_direct_unconfigured_witness :
  exists resp,
    ask Demo.helpful (Demo.request "ann@uni.edu" (Some "false")) Cases.keyless
      = (Ok resp, Cases.keyless) /\
    status resp = 400.
Proof.
  destruct (ask_direct_unconfigured Demo.helpful
              (Demo.request "ann@uni.edu" (Some "false")) Cases.keyless
              "ann@uni.edu" "What are library hours and my fee balance?" Demo.ann)
    as (H & _).
  - split; vm_compute; reflexivity.
  - reflexivity.
  - eexists. split; [apply H; vm_compute; reflexivity|reflexivity].
Defined.

(** ** The handler: the direct path *)

Lemma resolveSession_run rt sessionId w :
  resolveSession rt sessionId w =
    match Js.truthy_str sessionId with
    | Some sid => (Ok (false, sid), w)
    | None =>
        (Ok (true,
             "session_" +:+ dateNow rt (ticks w) +:+ "_" +:+ randomSuffix rt (ticks w)),
         tick w)
    end.
Proof. unfold resolveSession. destruct (Js.truthy_str sessionId); reflexivity. Qed.

(** The task the direct path and the no-store path detach: the session
    file of a new session, then the message.  It always ends, and calls
    no service; on a session path the router can write it changes that
    one file, and the message is the last one of the stored session
    unless the file held a bare array. *)
Lemma turn_recorded rt isNew email sid name (mk : string -> list (string * json)) w :
  exists w',
    background
      (createIfNew rt isNew email sid name ;;;
       stamp <- now rt ;;
       appendMessageToSessionFile rt email sid (mk stamp)) w = (Ok tt, w') /\
    trace w' = trace w /\
    (View.writable w (getSessionFile email sid) ->
     providerLogsDir w' = providerLogsDir w /\
     outside w' = outside w /\
     (forall other, other <> getSessionFile email sid ->
                    chatDir w' !! other = chatDir w !! other) /\
     (isNew = true \/ Spec.bareArray (chatDir w !! getSessionFile email sid) = false ->
      exists doc stamp,
        chatDir w' !! getSessionFile email sid = Some (Doc doc) /\
        last (Spec.messagesOf doc) = Some (JObj (mk stamp)))).
Proof.
  set (task := createIfNew rt isNew email sid name ;;;
               stamp <- now rt ;;
               appendMessageToSessionFile rt email sid (mk stamp)).
  assert (Htask : forall w0,
             task w0 =
               (createIfNew rt isNew email sid name ;;;
                stamp <- now rt ;;
                appendMessageToSessionFile rt email sid (mk stamp) ;;; ret tt) w0).
  { intros w0. apply bind_ext; intros _ ?. apply bind_ext; intros ? ?.
    symmetry. apply bind_ret_tt. }
  destruct (background_total task w) as (w' & Eb).
  exists w'. split; [exact Eb|]. split.
  - assert (Hq : trace (snd (background task w)) = trace w).
    { unfold background, try_catch. rewrite Htask.
      apply (quiet_record rt isNew email sid name mk (ret tt) (quiet_ret tt) w). }
    now rewrite Eb in Hq.
  - intros Hw.
    destruct (record_turn rt isNew email sid name mk (ret tt) w Hw)
      as (stamp & w4 & Hrun & _ & Hp & Ho & Hf & Hl).
    rewrite (background_ok task w w4) in Eb by (rewrite Htask; exact Hrun).
    injection Eb as <-.
    split; [exact Hp|]. split; [exact Ho|]. split; [exact Hf|].
    intros H. destruct (Hl H) as (doc & Hd & Hlast). now exists doc, stamp.
Qed.

(** X12.  In direct mode, when the model answers, the response is 200
    with the model's text (or [No response from Gemini] when it is empty
    or missing), no stores, the model's name, and the caller's session
    id when one was given; the model is called exactly once and no store
    is queried.  When the session path can be written, no provider log
    is touched, and the last message of the stored session is the
    turn's, with method [direct_gemini] and the same answer (provided
    the session is new or its file holds no bare array). *)
Theorem ask_direct_success rt req w email question student key modelName r :
  Spec.Known req w email question student ->
  shouldDoCampusSearch (q_isCampusSearch req) = false ->
  Spec.keyFor rt w student = Some key ->
  pickModel rt = Some modelName ->
  generateContent rt (trace w) key modelName (GenDirect question) = GenReturns r ->
  let answer := default "No response from Gemini" (Js.truthy_str (response_text_of r)) in
  exists sid timestamp w',
    ask rt req w =
      (Ok (json_res
             [("sessionId", JStr sid);
              ("answer", JStr answer);
              ("storesUsed", JArr []);
              ("grounding", JArr []);
              ("isCampusSearch", JBool false);
              ("modelUsed", JStr modelName);
              ("timestamp", JStr timestamp)]), w') /\
    (forall given, Js.truthy_str (q_sessionId req) = Some given -> sid = given) /\
    trace w' = trace w ++ [EvGenerate key modelName (GenDirect question)] /\
    (View.writable w (getSessionFile email sid) ->
     providerLogsDir w' = providerLogsDir w /\
     (Js.truthy_str (q_sessionId req) = None \/
      Spec.bareArray (chatDir w !! getSessionFile email sid) = false ->
      exists doc stamp,
        chatDir w' !! getSessionFile email sid = Some (Doc doc) /\
        last (Spec.messagesOf doc) =
          Some (JObj
                  [("role", JStr "assistant");
                   ("question", JStr question);
                   ("answer", JStr answer);
                   ("storesUsed", JArr []);
                   ("grounding", JArr []);
                   ("timestamp", JStr stamp);
                   ("isCampusSearch", JBool false);
                   ("method", JStr "direct_gemini");
                   ("model", JStr modelName)]))).
Proof.
  intros Hk Hc Hkey Hm Hg answer.
  rewrite (ask_known _ _ _ _ _ _ Hk), Hc.
  unfold directGemini, try_catch at 1, bind at 1, readUniversity.
  unfold Spec.keyFor in Hkey. rewrite Hkey, Hm.
  unfold try_catch, bind at 1, callModel. rewrite Hg.
  unfold bind at 1. rewrite resolveSession_run.
  set (w0 := with_event (EvGenerate key modelName (GenDirect question)) w).
  set (mk := fun stamp : string =>
               [("role", JStr "assistant");
                ("question", JStr question);
                ("answer", JStr answer);
                ("storesUsed", JArr []);
                ("grounding", JArr []);
                ("timestamp", JStr stamp);
                ("isCampusSearch", JBool false);
                ("method", JStr "direct_gemini");
                ("model", JStr modelName)]).
  destruct (Js.truthy_str (q_sessionId req)) as [given|] eqn:Hsid.
  - destruct (turn_recorded rt false email given (sessionNameFor false question) mk
                (tick w0)) as (w' & Eb & Ht & Hrec).
    exists given, (clock rt (ticks w0)), w'.
    split; [|split; [now intros ? [= <-]|split; [rewrite Ht; reflexivity|]]].
    + unfold bind at 1; unfold now at 1. unfold bind at 1.
      change (background _ (tick w0)) with
        (background
           (createIfNew rt false email given (sessionNameFor false question) ;;;
            stamp <- now rt ;;
            appendMessageToSessionFile rt email given (mk stamp)) (tick w0)).
      rewrite Eb. reflexivity.
    + intros Hw. destruct (Hrec Hw) as (Hp & _ & _ & Hl).
      split; [exact Hp|]. intros [H|H]; [discriminate|]. apply Hl. now right.
  - set (sid := "session_" +:+ dateNow rt (ticks w0) +:+ "_"
                +:+ randomSuffix rt (ticks w0)).
    destruct (turn_recorded rt true email sid (sessionNameFor true question) mk
                (tick (tick w0))) as (w' & Eb & Ht & Hrec).
    exists sid, (clock rt (ticks (tick w0))), w'.
    split; [|split; [discriminate|split; [rewrite Ht; reflexivity|]]].
    + unfold bind at 1; unfold now at 1. unfold bind at 1.
      change (background _ (tick (tick w0))) with
        (background
           (createIfNew rt true email sid (sessionNameFor true question) ;;;
            stamp <- now rt ;;
            appendMessageToSessionFile rt email sid (mk stamp)) (tick (tick w0))).
      rewrite Eb. reflexivity.
    + intros Hw. destruct (Hrec Hw) as (Hp & _ & _ & Hl).
      split; [exact Hp|]. intros _. apply Hl. now left.
Qed.

Lemma ask_direct_success_witness :
  exists resp w' doc,
    ask Cases.direct (Demo.request "ann@uni.edu" (Some "false")) Demo.world
      = (Ok resp, w') /\
    Js.prop (body resp) "answer" = Some (JStr "Fees are due on the first of June.") /\
    Js.prop (body resp) "modelUsed" = Some (JStr "gemini-1.5-flash") /\
    chatDir w' !! "ann@uni.edu__session_171455320000_k3x9qa.json" = Some (Doc doc).
Proof.
  edestruct (ask_direct_success Cases.direct
               (Demo.request "ann@uni.edu" (Some "false")) Demo.world
               "ann@uni.edu" "What are library hours and my fee balance?" Demo.ann
               "key-1" "gemini-1.5-flash")
    as (sid & ts & w' & E & _ & _ & Hl).
  - split; vm_compute; reflexivity.
  - reflexivity.
  - vm_compute; reflexivity.
  - reflexivity.
  - reflexivity.
  - assert (Hsid : sid = "session_171455320000_k3x9qa").
    { vm_compute in E. now injection E as <- _. }
    subst sid.
    destruct Hl as (_ & Hdoc); [right; vm_compute; reflexivity|].
    destruct Hdoc as (doc & stamp & Hd & _); [now left|].
    eexists; exists w', doc. split; [exact E|].
    split; [reflexivity|]. split; [reflexivity|exact Hd].
Defined.

(** ** The handler: every request gets an answer *)



(** X13.  A classifier result the handler cannot read (the JSON value
    [null], or a [stores] that is neither a list nor a text and has no
    zero length) is answered 500 [Internal Server Error]; no store is
    queried, and no session file and no provider log is written. *)
Theorem ask_unreadable_classification rt req w email question student isNew sid c w2 :
  Spec.CampusTurn rt req w email question student isNew sid c w2 ->
  c = JNull \/
  (noneSelected (Spec.predictedOf c) = false /\ Spec.selectedOf c = None) ->
  exists resp w',
    ask rt req w = (Ok resp, w') /\
    status resp = 500 /\
    Js.prop (body resp) "error" = Some (JStr "Internal Server Error") /\
    chatDir w' = chatDir w /\
    providerLogsDir w' = providerLogsDir w /\
    trace w' = trace w2.
Proof.
  intros Hturn Hbad.
  rewrite (campus_turn_unfold _ _ _ _ _ _ _ _ _ _ Hturn).
  destruct (campus_turn_frame _ _ _ _ _ _ _ _ _ _ Hturn) as (Hchat & Hlogs & _).
  destruct Hbad as [->|[Hnone Hsel]].
  - eexists; eexists. split; [reflexivity|]. simpl. auto.
  - assert (Hc : c <> JNull) by (intros ->; discriminate).
    unfold answerFromClassification. rewrite !(getProp_value c) by assumption.
    unfold try_catch, bind at 1, ret. unfold bind at 1. unfold bind at 1.
    fold (Spec.predictedOf c). rewrite Hnone.
    unfold Spec.selectedOf in Hsel. unfold bind at 1, iterate.
    destruct (Spec.predictedOf c); try discriminate;
      (eexists; eexists; split; [reflexivity|]; simpl; auto).
Qed.

Lemma ask_unreadable_classification_witness :
  exists resp w',
    ask Cases.nullish (Demo.request "ann@uni.edu" None) Demo.world = (Ok resp, w') /\
    status resp = 500 /\
    chatDir w' = ∅.
Proof.
  edestruct (ask_unreadable_classification Cases.nullish
               (Demo.request "ann@uni.edu" None) Demo.world "ann@uni.edu"
               "What are library hours and my fee balance?" Demo.ann true
               "session_171455320000_k3x9qa")
    as (resp & w' & E & Hs & _ & Hc & _).
  - split.
    + split; vm_compute; reflexivity.
    + reflexivity.
    + discriminate.
    + eexists. split; vm_compute; reflexivity.
  - left. reflexivity.
  - exists resp, w'. repeat split; assumption.
Defined.



(** ** Campus search without a key *)



(** ** Session names *)

Lemma app_assoc_str (a b c : string) : (a +:+ b) +:+ c = a +:+ (b +:+ c).
Proof.
  induction a as [|x a IH]; [reflexivity|].
  change (String x ((a +:+ b) +:+ c) = String x (a +:+ (b +:+ c))). now rewrite IH.
Qed.

Lemma app_nil_r_str (a : string) : a +:+ "" = a.
Proof.
  induction a as [|x a IH]; [reflexivity|].
  change (String x (a +:+ "") = String x a). now rewrite IH.
Qed.

Lemma blankFree_app a b :
  View.blankFree (a +:+ b) = View.blankFree a && View.blankFree b.
Proof.
  induction a as [|x a IH]; [reflexivity|].
  change (View.blankFree (String x (a +:+ b))
          = View.blankFree (String x a) && View.blankFree b).
  simpl. rewrite IH. now rewrite andb_assoc.
Qed.

Lemma blankFree_rev_app a b :
  View.blankFree (String.rev_app a b) = View.blankFree a && View.blankFree b.
Proof.
  revert b. induction a as [|x a IH]; intros b; [reflexivity|].
  simpl. rewrite IH. simpl.
  destruct (Str.is_ws x), (View.blankFree a), (View.blankFree b); reflexivity.
Qed.

Lemma rev_app_nonempty a b : b <> "" -> String.rev_app a b <> "".
Proof.
  revert b. induction a as [|x a IH]; intros b Hb; [exact Hb|].
  simpl. apply IH. discriminate.
Qed.

Lemma word_rev acc : View.word acc -> View.word (String.rev acc).
Proof.
  intros [Hne Hb]. unfold String.rev. split.
  - destruct acc as [|x acc]; [contradiction|]. simpl.
    apply rev_app_nonempty. discriminate.
  - rewrite blankFree_rev_app, Hb. reflexivity.
Qed.

(** Every run that the split gives is a word. *)
Lemma runs_words s : forall cur,
  (forall acc, cur = Some acc -> View.word acc) ->
  Forall View.word (Str.runs cur s).
Proof.
  induction s as [|c s IH]; intros cur Hcur; simpl.
  - destruct cur as [acc|]; simpl; [|constructor].
    constructor; [|constructor]. apply word_rev. now apply Hcur.
  - destruct (Str.is_ws c) eqn:Hc.
    + apply Forall_app. split.
      * destruct cur as [acc|]; simpl; [|constructor].
        constructor; [|constructor]. apply word_rev. now apply Hcur.
      * apply IH. discriminate.
    + apply IH. intros acc [= <-]. split; [discriminate|].
      simpl. rewrite Hc. simpl.
      destruct cur as [acc|]; simpl; [|reflexivity].
      now destruct (Hcur acc eq_refl).
Qed.

Lemma runs_through w : forall acc s,
  View.blankFree w = true ->
  Str.runs (Some acc) (w +:+ s) = Str.runs (Some (String.rev_app w acc)) s.
Proof.
  induction w as [|c w IH]; intros acc s Hw; [reflexivity|].
  simpl in Hw. apply andb_prop in Hw as [Hc Hw].
  apply negb_true_iff in Hc.
  change (Str.runs (Some acc) (String c (w +:+ s))
          = Str.runs (Some (String.rev_app w (String c acc))) s).
  simpl. rewrite Hc. simpl. now apply IH.
Qed.

Lemma runs_word_first w s :
  View.word w ->
  exists acc, Str.runs None (w +:+ s) = Str.runs (Some acc) s.
Proof.
  intros [Hne Hb]. destruct w as [|c w]; [contradiction|].
  simpl in Hb. apply andb_prop in Hb as [Hc Hw]. apply negb_true_iff in Hc.
  exists (String.rev_app w (String c "")).
  change (Str.runs None (String c (w +:+ s))
          = Str.runs (Some (String.rev_app w (String c ""))) s).
  simpl. rewrite Hc. simpl. now apply runs_through.
Qed.

(** Splitting the words of a list joined by single spaces, with a
    blank-free tail added to the last one, gives as many words back. *)
Lemma runs_join_length ws tail :
  ws <> [] ->
  Forall View.word ws ->
  View.blankFree tail = true ->
  List.length (Str.runs None (Str.join " " ws +:+ tail)) = List.length ws.
Proof.
  intros Hne Hws Htail. induction Hws as [|w rest Hw Hrest IH]; [contradiction|].
  destruct rest as [|w2 rest].
  - simpl Str.join.
    assert (Hwt : View.word (w +:+ tail)).
    { destruct Hw as [Hn Hb]. split.
      - destruct w; [contradiction|discriminate].
      - rewrite blankFree_app, Hb, Htail. reflexivity. }
    destruct (runs_word_first (w +:+ tail) "" Hwt) as (acc & E).
    rewrite app_nil_r_str in E. rewrite E. reflexivity.
  - change (Str.join " " (w :: w2 :: rest))
      with (w +:+ " " +:+ Str.join " " (w2 :: rest)).
    rewrite !app_assoc_str.
    destruct (runs_word_first w (" " +:+ Str.join " " (w2 :: rest) +:+ tail) Hw)
      as (acc & E).
    rewrite E.
    change (Str.runs (Some acc) (" " +:+ Str.join " " (w2 :: rest) +:+ tail))
      with ([String.rev acc] ++ Str.runs None (Str.join " " (w2 :: rest) +:+ tail)).
    rewrite length_app. simpl List.length at 1 3.
    rewrite IH by discriminate. reflexivity.
Qed.

(** X17.  A session name has at most ten words: a question of up to ten
    words is kept as it is, trimmed, and a longer one is cut to its
    first ten words, joined by single spaces, with [...] added to the
    tenth. *)
Theorem generateSessionName_ten_words q :
  List.length (Str.splitWs (generateSessionName (JStr q))) <= 10 /\
  (10 < List.length (Str.splitWs (Str.trim q)) ->
   generateSessionName (JStr q)
     = Str.join " " (take 10 (Str.splitWs (Str.trim q))) +:+ "..." /\
   List.length (Str.splitWs (generateSessionName (JStr q))) = 10).
Proof.
  unfold generateSessionName.
  destruct (String.eqb_spec q "") as [->|Hq].
  { split; [vm_compute; lia|]. vm_compute. lia. }
  destruct (Nat.leb_spec (List.length (Str.splitWs (Str.trim q))) 10) as [Hle|Hgt].
  { split; [exact Hle|]. lia. }
  assert (Hlen : List.length
                   (Str.splitWs
                      (Str.join " " (take 10 (Str.splitWs (Str.trim q))) +:+ "..."))
                 = 10).
  { assert (Hwords : Forall View.word (Str.splitWs (Str.trim q))).
    { unfold Str.splitWs in *. destruct (Str.trim q) as [|c t] eqn:Ht.
      - simpl in Hgt. lia.
      - apply runs_words. discriminate. }
    assert (Htake : List.length (take 10 (Str.splitWs (Str.trim q))) = 10)
      by (rewrite length_take; lia).
    assert (Hne : take 10 (Str.splitWs (Str.trim q)) <> [])
      by (intros E; rewrite E in Htake; discriminate).
    pose proof (runs_join_length (take 10 (Str.splitWs (Str.trim q))) "..." Hne
                  ltac:(apply Forall_take; exact Hwords) eq_refl) as Hrun.
    unfold Str.splitWs at 1.
    destruct (Str.join " " (take 10 (Str.splitWs (Str.trim q))) +:+ "...") eqn:Hj.
    - simpl in Hrun. lia.
    - rewrite Hrun. exact Htake. }
  split; [rewrite Hlen; lia|]. intros _. split; [reflexivity|exact Hlen].
Qed.

Lemma generateSessionName_ten_words_witness :
  generateSessionName
    (JStr "one two three four five six seven eight nine ten eleven twelve")
  = "one two three four five six seven eight nine ten...".
Proof.
  destruct (generateSessionName_ten_words
              "one two three four five six seven eight nine ten eleven twelve")
    as (_ & H).
  destruct H as [-> _]; [vm_compute; lia|reflexivity].
Defined.

(** ** The store loop never strays *)



(** ** A failure signal drops what was found before *)




(** ** The direct path stays away from the stores *)

(** X20.  In direct mode no store is ever queried, however the call to
    the model ends: the only call that can be added to the history is
    the one to the model, with the bare question.  When the path of the
    turn's session (the caller's, or the one the turn opens) can be
    written, no provider log is touched either. *)
Theorem ask_direct_frame rt req w email question student :
  Spec.Known req w email question student ->
  shouldDoCampusSearch (q_isCampusSearch req) = false ->
  exists resp w',
    ask rt req w = (Ok resp, w') /\
    (trace w' = trace w \/
     exists key modelName,
       trace w' = trace w ++ [EvGenerate key modelName (GenDirect question)]) /\
    (View.writable w
       (getSessionFile email
          (match Js.truthy_str (q_sessionId req) with
           | Some given => given
           | None => "session_" +:+ dateNow rt (ticks w) +:+ "_"
                     +:+ randomSuffix rt (ticks w)
           end)) ->
     providerLogsDir w' = providerLogsDir w).
Proof.
  intros Hk Hc. rewrite (ask_known _ _ _ _ _ _ Hk), Hc.
  unfold directGemini. unfold try_catch at 1, bind at 1, readUniversity.
  destruct (resolveKey rt _) as [key|].
  2:{ eexists; eexists. split; [reflexivity|]. auto. }
  destruct (pickModel rt) as [modelName|].
  2:{ eexists; eexists. split; [reflexivity|]. auto. }
  unfold try_catch, bind at 1, callModel.
  destruct (generateContent rt (trace w) key modelName (GenDirect question)) as [e|r].
  { eexists; eexists. split; [reflexivity|]. split; [|reflexivity]. right. eauto. }
  unfold bind at 1. rewrite resolveSession_run.
  set (w0 := with_event (EvGenerate key modelName (GenDirect question)) w).
  set (mk := fun stamp : string =>
               [("role", JStr "assistant");
                ("question", JStr question);
                ("answer",
                 JStr (default "No response from Gemini"
                         (Js.truthy_str (response_text_of r))));
                ("storesUsed", JArr []);
                ("grounding", JArr []);
                ("timestamp", JStr stamp);
                ("isCampusSearch", JBool false);
                ("method", JStr "direct_gemini");
                ("model", JStr modelName)]).
  destruct (Js.truthy_str (q_sessionId req)) as [given|].
  - destruct (turn_recorded rt false email given (sessionNameFor false question) mk
                (tick w0)) as (w4 & Hb & Ht & Hrec).
    unfold bind at 1; unfold now at 1. unfold bind at 1.
    change (background _ (tick w0)) with
      (background
         (createIfNew rt false email given (sessionNameFor false question) ;;;
          stamp <- now rt ;;
          appendMessageToSessionFile rt email given (mk stamp)) (tick w0)).
    rewrite Hb. eexists; exists w4. split; [reflexivity|].
    split; [right; exists key, modelName; exact Ht|].
    intros Hw. destruct (Hrec Hw) as (Hp & _). exact Hp.
  - set (sid := "session_" +:+ dateNow rt (ticks w0) +:+ "_"
                +:+ randomSuffix rt (ticks w0)).
    destruct (turn_recorded rt true email sid (sessionNameFor true question) mk
                (tick (tick w0))) as (w4 & Hb & Ht & Hrec).
    unfold bind at 1; unfold now at 1. unfold bind at 1.
    change (background _ (tick (tick w0))) with
      (background
         (createIfNew rt true email sid (sessionNameFor true question) ;;;
          stamp <- now rt ;;
          appendMessageToSessionFile rt email sid (mk stamp)) (tick (tick w0))).
    rewrite Hb. eexists; exists w4. split; [reflexivity|].
    split; [right; exists key, modelName; exact Ht|].
    intros Hw. destruct (Hrec Hw) as (Hp & _). exact Hp.
Qed.

Lemma ask_direct_frame_witness :
  exists resp w',
    ask Demo.refused (Demo.request "ann@uni.edu" (Some "false")) Demo.world
      = (Ok resp, w') /\
    providerLogsDir w' = ∅.
Proof.
  destruct (ask_direct_frame Demo.refused (Demo.request "ann@uni.edu" (Some "false"))
              Demo.world "ann@uni.edu" "What are library hours and my fee balance?"
              Demo.ann) as (resp & w' & E & _ & Hp).
  - split; vm_compute; reflexivity.
  - reflexivity.
  - exists resp, w'. split; [exact E|]. apply Hp. right. vm_compute. reflexivity.
Defined.

(** ** Session ids that leave the caller's sessions *)





